(** * NiftyNavigatorAgent: the advisory bot and the position monitor

    A shallow embedding of [src/bot.py], [src/storage/db.py] and
    [src/monitor.py], and the properties of the specification that are
    settled on it.

    Python values are embedded as follows.
    - [str] is a sequence of Unicode code points ([list N]); the tables of
      the interpreter that the code relies on ([str.isspace], the decimal
      digits of [\d] and [int], the line boundaries of [splitlines]) are
      those of Unicode 14.0, as CPython 3.11 ships them.
    - [float] is IEEE 754 binary64, through [SpecFloat] at precision 53 and
      exponent bound 1024, with round-to-nearest-even.
    - [int] is [Z].
    - A raised exception is the [Raise] case of [result]. *)

From Stdlib Require Import String Ascii.
From Stdlib Require Import ZArith NArith List Bool Lia.
From Stdlib Require Import Floats.SpecFloat.
Import ListNotations.

Set Implicit Arguments.

(** ** Exceptions *)

Inductive exn : Type :=
| ValueError
| ZeroDivisionError
| IndexError
| AttributeError
| FileNotFoundError
| JSONDecodeError
| ServiceError.

Inductive result (A : Type) : Type :=
| Ok (a : A)
| Raise (e : exn).

Arguments Ok {A} a.
Arguments Raise {A} e.

Definition bind {A B : Type} (r : result A) (k : A -> result B) : result B :=
  match r with
  | Ok a => k a
  | Raise e => Raise e
  end.

Notation "x <- r ;; k" := (bind r (fun x => k))
  (at level 61, r at next level, right associativity).

(** ** Python strings *)

Definition str : Type := list N.

(** Decoding of the UTF-8 bytes of a literal of this file into code points,
    so that the literals of the source can be written as they are. *)
Fixpoint utf8 (bs : list N) : str :=
  match bs with
  | [] => []
  | b0 :: t0 =>
    if (b0 <? 0x80)%N then b0 :: utf8 t0
    else
      match t0 with
      | [] => []
      | b1 :: t1 =>
        if (b0 <? 0xE0)%N
        then ((b0 - 0xC0) * 64 + (b1 - 0x80))%N :: utf8 t1
        else
          match t1 with
          | [] => []
          | b2 :: t2 =>
            if (b0 <? 0xF0)%N
            then ((b0 - 0xE0) * 4096 + (b1 - 0x80) * 64 + (b2 - 0x80))%N
                 :: utf8 t2
            else
              match t2 with
              | [] => []
              | b3 :: t3 =>
                ((b0 - 0xF0) * 262144 + (b1 - 0x80) * 4096
                 + (b2 - 0x80) * 64 + (b3 - 0x80))%N :: utf8 t3
              end
          end
      end
  end.

Definition u (s : string) : str :=
  utf8 (map N_of_ascii (list_ascii_of_string s)).

Definition str_eqb (a b : str) : bool :=
  if list_eq_dec N.eq_dec a b then true else false.

(** [str.isspace] of one code point; [\s] of [re] on a [str] pattern is the
    same set. *)
Definition whitespace : list N :=
  [ 0x9; 0xA; 0xB; 0xC; 0xD; 0x1C; 0x1D; 0x1E; 0x1F; 0x20; 0x85; 0xA0;
    0x1680; 0x2000; 0x2001; 0x2002; 0x2003; 0x2004; 0x2005; 0x2006; 0x2007;
    0x2008; 0x2009; 0x200A; 0x2028; 0x2029; 0x202F; 0x205F; 0x3000 ]%N.

Definition isspace (c : N) : bool := existsb (N.eqb c) whitespace.

(** The decimal digits (category Nd): 66 runs of ten consecutive code
    points, each run in the order 0 to 9.  [\d] matches exactly these and
    [int] and [float] read them by their value. *)
Definition digit_zeros : list N :=
  [ 0x30; 0x660; 0x6F0; 0x7C0; 0x966; 0x9E6; 0xA66; 0xAE6; 0xB66; 0xBE6;
    0xC66; 0xCE6; 0xD66; 0xDE6; 0xE50; 0xED0; 0xF20; 0x1040; 0x1090;
    0x17E0; 0x1810; 0x1946; 0x19D0; 0x1A80; 0x1A90; 0x1B50; 0x1BB0; 0x1C40;
    0x1C50; 0xA620; 0xA8D0; 0xA900; 0xA9D0; 0xA9F0; 0xAA50; 0xABF0; 0xFF10;
    0x104A0; 0x10D30; 0x11066; 0x110F0; 0x11136; 0x111D0; 0x112F0; 0x11450;
    0x114D0; 0x11650; 0x116C0; 0x11730; 0x118E0; 0x11950; 0x11C50; 0x11D50;
    0x11DA0; 0x16A60; 0x16AC0; 0x16B50; 0x1D7CE; 0x1D7D8; 0x1D7E2; 0x1D7EC;
    0x1D7F6; 0x1E140; 0x1E2F0; 0x1E950; 0x1FBF0 ]%N.

Fixpoint digit_in (zeros : list N) (c : N) : option N :=
  match zeros with
  | [] => None
  | z :: zs =>
    if ((z <=? c) && (c <? z + 10))%N then Some (c - z)%N
    else digit_in zs c
  end.

Definition digit_value (c : N) : option N := digit_in digit_zeros c.

Definition isdigit (c : N) : bool :=
  match digit_value c with Some _ => true | None => false end.

(** [str.strip()], with no argument: whitespace is removed at both ends. *)
Fixpoint lstrip (s : str) : str :=
  match s with
  | [] => []
  | c :: s' => if isspace c then lstrip s' else s
  end.

Definition rstrip (s : str) : str := rev (lstrip (rev s)).

Definition strip (s : str) : str := rstrip (lstrip s).

(** [sep.join(parts)]. *)
Fixpoint join (sep : str) (parts : list str) : str :=
  match parts with
  | [] => []
  | [p] => p
  | p :: ps => p ++ sep ++ join sep ps
  end.

(** [s.split(sep)] for a separator of one code point: the pieces between
    the occurrences of [sep], at least one piece. *)
Fixpoint split (sep : N) (s : str) : list str :=
  match s with
  | [] => [[]]
  | c :: s' =>
    if (c =? sep)%N then [] :: split sep s'
    else
      match split sep s' with
      | [] => [[c]]
      | p :: ps => (c :: p) :: ps
      end
  end.

(** [s.replace(old, new)] for [old] of one code point. *)
Definition replace (old : N) (new : str) (s : str) : str :=
  flat_map (fun c => if (c =? old)%N then new else [c]) s.

(** [s.endswith(suffix)]. *)
Definition endswith (s suffix : str) : bool :=
  str_eqb (skipn (length s - length suffix) s) suffix
  && (length suffix <=? length s).

(** [str.splitlines()]: a line ends at one of the line boundaries below or
    at the pair CR LF; the boundaries are dropped and a boundary at the very
    end opens no further line. *)
Definition line_boundaries : list N :=
  [ 0xA; 0xB; 0xC; 0xD; 0x1C; 0x1D; 0x1E; 0x85; 0x2028; 0x2029 ]%N.

Definition is_linebreak (c : N) : bool := existsb (N.eqb c) line_boundaries.

Fixpoint splitlines (s : str) : list str :=
  match s with
  | [] => []
  | c :: s' =>
    if is_linebreak c then
      match s' with
      | d :: s'' =>
        if ((c =? 0xD) && (d =? 0xA))%N then [] :: splitlines s''
        else [] :: splitlines s'
      | [] => [[]]
      end
    else
      match splitlines s' with
      | [] => [[c]]
      | l :: ls => (c :: l) :: ls
      end
  end.

Definition NL : str := [0xA%N].


(** ** Python numbers *)

(** [str(n)] of a non-negative [int]. *)
Fixpoint decimal (fuel : nat) (n : N) (acc : str) : str :=
  match fuel with
  | O => acc
  | S fuel' =>
    let acc' := (0x30 + n mod 10)%N :: acc in
    if (n / 10 =? 0)%N then acc' else decimal fuel' (n / 10)%N acc'
  end.

Definition str_of_N (n : N) : str := decimal (S (N.size_nat n)) n [].

(** [str(z)] of an [int], as an f-string renders it. *)
Definition str_of_int (z : Z) : str :=
  match z with
  | Zneg p => 0x2D%N :: str_of_N (Npos p)
  | _ => str_of_N (Z.to_N z)
  end.

(** The value of a run of decimal digits, most significant first; [None]
    when a code point is not a digit. *)
Fixpoint digits_value (acc : N) (s : str) : option N :=
  match s with
  | [] => Some acc
  | c :: s' =>
    match digit_value c with
    | Some d => digits_value (acc * 10 + d)%N s'
    | None => None
    end
  end.

(** [sys.get_int_max_str_digits()]: the bound that CPython 3.11 puts on the
    number of digits that [int] converts, leading zeros included. *)
Definition MAX_STR_DIGITS : nat := 4300.

(** [int(s)] on a string without sign, blanks or underscores, the only kind
    that reaches it in this program: a non-empty run of at most
    [MAX_STR_DIGITS] decimal digits is read in base ten and everything
    else, the empty string and a longer run included, raises
    [ValueError]. *)
Definition py_int (s : str) : result Z :=
  match s with
  | [] => Raise ValueError
  | _ =>
    if (length s <=? MAX_STR_DIGITS)%nat then
      match digits_value 0 s with
      | Some n => Ok (Z.of_N n)
      | None => Raise ValueError
      end
    else Raise ValueError
  end.

(** *** binary64 *)

Definition float : Type := spec_float.

Definition prec : Z := 53.
Definition emax : Z := 1024.

(** The [float] of an [int] that is within range. *)
Definition float_of_int (z : Z) : float := binary_normalize prec emax z 0 false.

Definition fsub (x y : float) : float := SFsub prec emax x y.
Definition fmul (x y : float) : float := SFmul prec emax x y.
Definition fle (x y : float) : bool := SFleb x y.
Definition flt (x y : float) : bool := SFltb x y.

(** [x / y]: Python raises where IEEE 754 would return an infinity or a
    NaN. *)
Definition fdiv (x y : float) : result float :=
  match y with
  | S754_zero _ => Raise ZeroDivisionError
  | _ => Ok (SFdiv prec emax x y)
  end.

(** The binary64 nearest to [m / 10^k], ties to even. *)
Definition float_of_decimal (m : N) (k : nat) : float :=
  match m with
  | N0 => S754_zero false
  | Npos p => SFdiv prec emax (S754_finite false p 0)
                    (S754_finite false (Z.to_pos (10 ^ Z.of_nat k)) 0)
  end.

Definition DOT : N := 0x2E.

(** [float(s)] on a string of the shape digits, or digits [.] digits, the
    only kind that reaches it in this program: the decimal number is rounded
    to the nearest binary64 (to infinity when it is out of range). *)
Definition py_float (s : str) : result float :=
  match split DOT s with
  | [ip] =>
    match ip, digits_value 0 ip with
    | _ :: _, Some m => Ok (float_of_decimal m 0)
    | _, _ => Raise ValueError
    end
  | [ip; fp] =>
    match ip ++ fp, digits_value 0 (ip ++ fp) with
    | _ :: _, Some m => Ok (float_of_decimal m (length fp))
    | _, _ => Raise ValueError
    end
  | _ => Raise ValueError
  end.

(** *** The text of a [float]

    A finite [float] is the exact rational [m * 2^e]; its renderings are
    computed on that rational. *)

Definition ratio (m : positive) (e : Z) : Z * Z :=
  if (0 <=? e)%Z then (Zpos m * 2 ^ e, 1)%Z else (Zpos m, 2 ^ (- e))%Z.

Definition round_half_even (num den : Z) : Z :=
  let q := (num / den)%Z in
  match (2 * (num mod den) ?= den)%Z with
  | Lt => q
  | Gt => (q + 1)%Z
  | Eq => if Z.even q then q else (q + 1)%Z
  end.

Definition sign_text (s : bool) : str := if s then [0x2D%N] else [].

(** The last [width] decimal digits of [n]; [zero_padded] is [%0<width>d]. *)
Fixpoint fixed_digits (width : nat) (n : N) : str :=
  match width with
  | O => []
  | S w => fixed_digits w (n / 10)%N ++ [(0x30 + n mod 10)%N]
  end.

Definition zero_padded (width : nat) (n : N) : str :=
  if (n <? 10 ^ N.of_nat width)%N then fixed_digits width n else str_of_N n.

(** [f"{x:.2f}"]: [x] rounded to hundredths, ties to even. *)
Definition format_2f (x : float) : str :=
  match x with
  | S754_nan => u "nan"
  | S754_infinity s => sign_text s ++ u "inf"
  | S754_zero s => sign_text s ++ u "0.00"
  | S754_finite s m e =>
    let (num, den) := ratio m e in
    let n := round_half_even (num * 100) den in
    sign_text s ++ str_of_int (n / 100) ++ [DOT]
    ++ zero_padded 2 (Z.to_N (n mod 100))
  end.

Definition float_eqb (x y : float) : bool :=
  match x, y with
  | S754_zero a, S754_zero b => Bool.eqb a b
  | S754_infinity a, S754_infinity b => Bool.eqb a b
  | S754_nan, S754_nan => true
  | S754_finite a m e, S754_finite b n f =>
    Bool.eqb a b && (m =? n)%positive && (e =? f)%Z
  | _, _ => false
  end.

(** The binary64 nearest to [n * 10^t], for [n >= 0]. *)
Definition float_of_scaled (n t : Z) : float :=
  if (0 <=? t)%Z then float_of_int (n * 10 ^ t)
  else float_of_decimal (Z.to_N n) (Z.to_nat (- t)).

Definition digits10 (n : Z) : Z := Z.of_nat (length (str_of_int n)).

(** The exponent [E] with [10^E <= num / den < 10^(E+1)]. *)
Definition log10_floor (num den : Z) : Z :=
  let e0 := (digits10 num - digits10 den)%Z in
  let reached :=
    if (0 <=? e0)%Z then (den * 10 ^ e0 <=? num)%Z
    else (den <=? num * 10 ^ (- e0))%Z in
  if reached then e0 else (e0 - 1)%Z.

(** The shortest decimal [n * 10^t] that [float] reads back as the positive
    finite [x = m * 2^e], and the nearest to [x] among the shortest: [p]
    digits are tried for [p = 1, 2, ...], seventeen always suffice. *)
Fixpoint shortest (fuel : nat) (p : Z) (x : float) (num den E : Z) : Z * Z :=
  let t := (E - p + 1)%Z in
  let snum := if (0 <=? t)%Z then num else (num * 10 ^ (- t))%Z in
  let sden := if (0 <=? t)%Z then (den * 10 ^ t)%Z else den in
  let lo := (snum / sden)%Z in
  let hi := (lo + 1)%Z in
  let near := round_half_even snum sden in
  let far := if (near =? lo)%Z then hi else lo in
  if float_eqb (float_of_scaled near t) x then (near, t)
  else if float_eqb (float_of_scaled far t) x then (far, t)
  else
    match fuel with
    | O => (near, t)
    | S fuel' => shortest fuel' (p + 1) x num den E
    end.

Fixpoint strip_zeros (fuel : nat) (n t : Z) : Z * Z :=
  match fuel with
  | O => (n, t)
  | S fuel' =>
    if ((n mod 10 =? 0) && negb (n =? 0))%Z
    then strip_zeros fuel' (n / 10)%Z (t + 1)%Z
    else (n, t)
  end.

(** [repr(x)], which is also [str(x)] and the text of [x] in an f-string:
    the shortest digits, in positional notation when the decimal point falls
    within sixteen places, in exponent notation otherwise. *)
Definition float_repr (x : float) : str :=
  match x with
  | S754_nan => u "nan"
  | S754_infinity s => sign_text s ++ u "inf"
  | S754_zero s => sign_text s ++ u "0.0"
  | S754_finite s m e =>
    let (num, den) := ratio m e in
    let nt := shortest 17 1 (S754_finite false m e) num den
                       (log10_floor num den) in
    let (n, t) := strip_zeros 20 (fst nt) (snd nt) in
    let ds := str_of_int n in
    let nd := Z.of_nat (length ds) in
    let decpt := (nd + t)%Z in
    sign_text s ++
    if ((-4 <? decpt) && (decpt <=? 16))%Z then
      if (decpt <=? 0)%Z
      then u "0." ++ repeat 0x30%N (Z.to_nat (- decpt)) ++ ds
      else if (nd <=? decpt)%Z
      then ds ++ repeat 0x30%N (Z.to_nat (decpt - nd)) ++ u ".0"
      else firstn (Z.to_nat decpt) ds ++ [DOT] ++ skipn (Z.to_nat decpt) ds
    else
      firstn 1 ds
      ++ (if (1 <? nd)%Z then [DOT] ++ skipn 1 ds else [])
      ++ u "e" ++ (if (decpt - 1 <? 0)%Z then u "-" else u "+")
      ++ zero_padded 2 (Z.to_N (Z.abs (decpt - 1)))
  end.


(** ** Regular expressions

    The patterns of the program are run by the backtracking matcher of
    [re].  [ms r st] lists, in the order in which the matcher tries them,
    the states in which a match of [r] that starts in [st] can end: greedy
    repetition tries the longest run first.  A search succeeds with the
    first of them, at the leftmost start that has one. *)

Inductive regex : Type :=
| Lit (c : N)
| Cls (p : N -> bool)
| Cat (r1 r2 : regex)
| Star (r : regex)
| Plus (r : regex)
| Opt (r : regex)
| Group (i : nat) (r : regex)
| Bol
| Eol.

Infix ">>" := Cat (at level 60, right associativity).

Record mstate : Type := MState {
  pos : nat;
  rest : str;
  groups : list (nat * str)
}.

Definition eat (p : N -> bool) (st : mstate) : list mstate :=
  match rest st with
  | c :: s' => if p c then [MState (S (pos st)) s' (groups st)] else []
  | [] => []
  end.

(** Greedy repetition of [one]: one more round first, then none.  A round
    that consumes nothing is not repeated. *)
Fixpoint star (one : mstate -> list mstate) (fuel : nat) (st : mstate)
  : list mstate :=
  match fuel with
  | O => [st]
  | S fuel' =>
    flat_map (fun st' =>
                if length (rest st') <? length (rest st)
                then star one fuel' st' else [])
             (one st)
    ++ [st]
  end.

Definition close_group (i : nat) (st st' : mstate) : mstate :=
  MState (pos st') (rest st')
         ((i, firstn (pos st' - pos st) (rest st)) :: groups st').

Fixpoint ms (r : regex) (st : mstate) : list mstate :=
  match r with
  | Lit c => eat (N.eqb c) st
  | Cls p => eat p st
  | Cat r1 r2 => flat_map (ms r2) (ms r1 st)
  | Star r1 => star (ms r1) (length (rest st)) st
  | Plus r1 =>
    flat_map (fun st' => star (ms r1) (length (rest st')) st') (ms r1 st)
  | Opt r1 => ms r1 st ++ [st]
  | Group i r1 => map (close_group i st) (ms r1 st)
  | Bol => if (pos st =? 0)%nat then [st] else []
  | Eol =>
    match rest st with
    | [] => [st]
    | [c] => if (c =? 0xA)%N then [st] else []
    | _ => []
    end
  end.

(** [re.match(r, text)]: a match that starts at the beginning. *)
Definition re_match (r : regex) (text : str) : option mstate :=
  hd_error (ms r (MState 0 text [])).

(** [re.search(r, text)]: the first match at the leftmost start. *)
Fixpoint search_from (r : regex) (start : nat) (s : str) : option mstate :=
  match ms r (MState start s []) with
  | st :: _ => Some st
  | [] =>
    match s with
    | [] => None
    | _ :: s' => search_from r (S start) s'
    end
  end.

Definition re_search (r : regex) (text : str) : option mstate :=
  search_from r 0 text.

(** [m.group(i)]; [None] when the group took no part in the match. *)
Fixpoint assoc (i : nat) (gs : list (nat * str)) : option str :=
  match gs with
  | [] => None
  | (j, s) :: gs' => if (i =? j)%nat then Some s else assoc i gs'
  end.

Definition group (i : nat) (m : mstate) : option str := assoc i (groups m).

(** Under [re.IGNORECASE] a letter of a pattern matches the code points
    whose lower case is the letter's, and also those that the case table of
    [re] pairs with it: U+0130 and U+0131 with [i], U+017F with [s],
    U+212A with [k]. *)
Definition ascii_lower (c : N) : N :=
  if ((0x41 <=? c) && (c <=? 0x5A))%N then (c + 32)%N else c.

Definition ignorecase_pairs : list (N * N) :=
  [ (0x69, 0x130); (0x69, 0x131); (0x73, 0x17F); (0x6B, 0x212A) ]%N.

Definition caseless (p x : N) : bool :=
  (ascii_lower x =? ascii_lower p)%N
  || existsb (fun le => (fst le =? ascii_lower p)%N && (x =? snd le)%N)
             ignorecase_pairs.

Definition is_ascii_letter (c : N) : bool :=
  ((0x41 <=? c) && (c <=? 0x5A) || (0x61 <=? c) && (c <=? 0x7A))%N.

(** [first_match r st st']: the matcher, started in [st], ends its first
    match of [r] in [st']. *)
Definition first_match (r : regex) (st st' : mstate) : Prop :=
  hd_error (ms r st) = Some st'.

(** A run of [p] cannot be extended into [s]. *)
Definition stops (p : N -> bool) (s : str) : bool :=
  match s with
  | [] => true
  | c :: _ => negb (p c)
  end.

(** A pattern without [^] and [$]. *)
Fixpoint anchor_free (r : regex) : bool :=
  match r with
  | Lit _ | Cls _ => true
  | Cat r1 r2 => anchor_free r1 && anchor_free r2
  | Star r1 | Plus r1 | Opt r1 | Group _ r1 => anchor_free r1
  | Bol | Eol => false
  end.

(** [st2] has the text of [st1] ahead of it, and then [t]. *)
Definition extends (t : str) (st1 st2 : mstate) : Prop :=
  rest st2 = rest st1 ++ t.

(** Whatever [f] reaches from a state, it reaches from every state that
    extends it, up to the extension. *)
Definition carries (t : str) (f : mstate -> list mstate) : Prop :=
  forall st1 st2, extends t st1 st2 ->
  forall st1', In st1' (f st1) ->
  exists st2', In st2' (f st2) /\ extends t st1' st2'.

(** ** The position store *)

Record Position : Type := {
  symbol : str;
  entry_price : float;
  timestamp : str
}.

(** The text of a positions file, as [json.load] reads it: the JSON text of
    an array of positions, which [json.dump] writes and [json.load] gives
    back, or a text that [json.load] rejects with [JSONDecodeError].  The
    program writes nothing else to the file; JSON of another shape is not a
    state of the store. *)
Inductive json_text : Type :=
| Encodes (positions : list Position)
| Malformed.

(** A naive [datetime]. *)
Record datetime : Type := {
  year : N;
  month : N;
  day : N;
  hour : N;
  minute : N;
  second : N;
  microsecond : N
}.

Definition HYPHEN : N := 0x2D.
Definition COLON : N := 0x3A.
Definition LETTER_T : N := 0x54.

(** [dt.isoformat()]: [YYYY-MM-DDTHH:MM:SS], and [.ffffff] after it when
    the microseconds are not zero. *)
Definition isoformat (dt : datetime) : str :=
  zero_padded 4 (year dt) ++ [HYPHEN] ++ zero_padded 2 (month dt)
  ++ [HYPHEN] ++ zero_padded 2 (day dt) ++ [LETTER_T]
  ++ zero_padded 2 (hour dt) ++ [COLON] ++ zero_padded 2 (minute dt)
  ++ [COLON] ++ zero_padded 2 (second dt)
  ++ (if (microsecond dt =? 0)%N then []
      else [DOT] ++ zero_padded 6 (microsecond dt)).

(** [dt.strftime('%H:%M')]. *)
Definition strftime_HM (dt : datetime) : str :=
  zero_padded 2 (hour dt) ++ [COLON] ++ zero_padded 2 (minute dt).

(** *** [src/storage/db.py] *)

Module Storage.

(** The file at [POS_FILE]: [None] when the path does not exist. *)
Definition file : Type := option json_text.

Definition load_positions (f : file) : result (list Position) :=
  match f with
  | None => Ok []
  | Some (Encodes positions) => Ok positions
  | Some Malformed => Raise JSONDecodeError
  end.

Definition save_positions (positions : list Position) : file :=
  Some (Encodes positions).

(** [add_position(symbol, price)] at the UTC time [utcnow]: the file it
    leaves, or the exception of [load_positions], raised before anything is
    written. *)
Definition add_position (utcnow : datetime) (symbol : str) (price : float)
  (f : file) : result file :=
  positions <- load_positions f ;;
  Ok (save_positions
        (positions ++ [ {| symbol := symbol; entry_price := price;
                           timestamp := isoformat utcnow |} ])).

End Storage.

(** ** The advisory bot ([src/bot.py]) *)

Module Bot.

Definition RUPEE : N := 0x20B9.
Definition COMMA : N := 0x2C.
Definition AT : N := 0x40.
Definition PERCENT : N := 0x25.
Definition EN_DASH : N := 0x2013.

(** Lines 43 to 62 of [bot.py] repeat [load_positions], [save_positions]
    and [add_position] of [storage/db.py] word for word. *)
Definition load_positions := Storage.load_positions.
Definition save_positions := Storage.save_positions.
Definition add_position := Storage.add_position.

Definition digit_or_comma (c : N) : bool := isdigit c || (c =? COMMA)%N.

(** The pattern of [parse_input]: a rupee sign, blanks, group 1 of digits
    and commas, blanks, an at sign, blanks, group 2 of digits with an
    optional fraction, a percent sign. *)
Definition pattern : regex :=
  Lit RUPEE >> Star (Cls isspace) >> Group 1 (Plus (Cls digit_or_comma))
  >> Star (Cls isspace) >> Lit AT >> Star (Cls isspace)
  >> Group 2 (Plus (Cls isdigit) >> Opt (Lit DOT >> Plus (Cls isdigit)))
  >> Lit PERCENT.

Definition group_text (i : nat) (m : mstate) : result str :=
  match group i m with
  | Some s => Ok s
  | None => Raise AttributeError
  end.

(** [parse_input(text)]: the pair [(None, None)], or the amount and the
    percent of the first match. *)
Definition parse_input (text : str) : result (option Z * option float) :=
  match re_search pattern text with
  | None => Ok (None, None)
  | Some m =>
    g1 <- group_text 1 m ;;
    amount <- py_int (replace COMMA [] g1) ;;
    g2 <- group_text 2 m ;;
    percent <- py_float g2 ;;
    Ok (Some amount, Some percent)
  end.

(** The guard of [handle_message], [^I buy\s+[A-Za-z\.]+$] under
    [re.IGNORECASE]. *)
Definition symbol_char (c : N) : bool :=
  (c =? DOT)%N || is_ascii_letter c
  || existsb (fun le => is_ascii_letter (fst le) && (c =? snd le)%N)
             ignorecase_pairs.

Definition buy_line : regex :=
  Bol >> Cls (caseless 0x49) >> Lit 0x20 >> Cls (caseless 0x62)
  >> Cls (caseless 0x75) >> Cls (caseless 0x79) >> Plus (Cls isspace)
  >> Plus (Cls symbol_char) >> Eol.

(** Lines 164 to 167 of [handle_message]: what is made of the answer of the
    first agent. *)
Definition nonempty (l : str) : bool := negb (str_eqb l []).

Definition pick_lines (picks : str) : list str :=
  filter nonempty (map strip (splitlines picks)).

Fixpoint numbering (i : Z) (lines : list str) : list str :=
  match lines with
  | [] => []
  | l :: ls => (str_of_int (i + 1) ++ u ". " ++ l) :: numbering (i + 1) ls
  end.

Definition numbered (lines : list str) : str := join NL (numbering 0 lines).

Definition before_dash (line : str) : str := strip (hd [] (split EN_DASH line)).

Definition top_pick (lines : list str) : result str :=
  match lines with
  | [] => Raise IndexError
  | l :: _ => Ok (before_dash l)
  end.

Definition symbols (lines : list str) : str :=
  join (u ", ") (map before_dash lines).

Definition parse_error_reply : str :=
  u "❌ Couldn't parse input. Use: ₹<amount> @ <percent>%".

Definition failure_reply : str :=
  u "⚠️ Sorry, couldn’t fetch recommendations. Try again later.".

Definition percent_text (percent : option float) : str :=
  match percent with
  | Some x => float_repr x
  | None => u "None"
  end.

(** The prompt of the first agent and the head of the final message. *)
Definition prompt (amount : Z) (percent : option float) : str :=
  u "Recommend 5 highly liquid NSE/BSE stocks for investing ₹"
  ++ str_of_int amount ++ u " with a goal of " ++ percent_text percent
  ++ u "% intraday profit. Provide a brief rationale for each.".

Definition picks_header (amount : Z) (percent : option float) : str :=
  u "📈 5 picks for ₹" ++ str_of_int amount ++ u " @ " ++ percent_text percent
  ++ u "%:" ++ NL.

Section Handler.

(** The call to the language model, which answers a prompt or raises. *)
Variable fetch_recommendations : str -> result str.

(** The sanity check of the second agent, or the notice that it was
    skipped. *)
Definition sanity_check (lines : list str) (percent : option float) : str :=
  let validation_prompt :=
    u "Symbols: " ++ symbols lines ++ u ". Can each plausibly hit "
    ++ percent_text percent ++ u "% intraday profit? Yes or No." in
  match fetch_recommendations validation_prompt with
  | Ok validation =>
    let val_lines := firstn 5 (map strip (splitlines validation)) in
    let bullets := join NL (map (fun l => u "• " ++ l) val_lines) in
    u "🔍 Sanity check:" ++ NL ++ bullets ++ NL ++ NL
  | Raise _ => u "🔍 Sanity check: skipped (service limit)" ++ NL ++ NL
  end.

(** The body of the [try] of [handle_message]; an exception raised in it
    is caught by the handler. *)
Definition advise (amount : Z) (percent : option float) : result str :=
  picks <- fetch_recommendations (prompt amount percent) ;;
  let lines := pick_lines picks in
  top <- top_pick lines ;;
  let final_msg := picks_header amount percent ++ numbered lines ++ NL ++ NL in
  Ok (final_msg ++ sanity_check lines percent
      ++ u "⭐️ Top suggestion: " ++ top).

(** [handle_message]: the replies sent, in order. *)
Definition handle_message (message_text : str) : result (list str) :=
  let text := strip message_text in
  match re_match buy_line text with
  | Some _ => Ok []
  | None =>
    parsed <- parse_input text ;;
    match parsed with
    | (None, _) => Ok [parse_error_reply]
    | (Some amount, percent) =>
      let ack :=
        u "✅ Received: ₹" ++ str_of_int amount ++ u ", target: "
        ++ percent_text percent ++ u "%" ++ NL
        ++ u "Fetching top 5 picks..." in
      match advise amount percent with
      | Ok final_msg => Ok [ack; final_msg]
      | Raise _ => Ok [ack; failure_reply]
      end
    end
  end.

End Handler.

(** The pattern of [buy_handler], [^I buy\s+([A-Za-z\.]+)$] under
    [re.IGNORECASE]: that of the guard of [handle_message], with the symbol
    as group 1. *)
Definition buy_pattern : regex :=
  Bol >> Cls (caseless 0x49) >> Lit 0x20 >> Cls (caseless 0x62)
  >> Cls (caseless 0x75) >> Cls (caseless 0x79) >> Plus (Cls isspace)
  >> Group 1 (Plus (Cls symbol_char)) >> Eol.

(** [str.upper()] on the code points that the symbol of [buy_pattern] can
    hold, each of which has an upper case of one code point: the small
    ASCII letters, the dotless i (U+0131) and the long s (U+017F) change,
    the others stay. *)
Definition upper_char (c : N) : N :=
  if ((0x61 <=? c) && (c <=? 0x7A))%N then (c - 32)%N
  else if (c =? 0x131)%N then 0x49%N
  else if (c =? 0x17F)%N then 0x53%N
  else c.

Definition upper (s : str) : str := map upper_char s.

(** [buy_handler]: the positions file it leaves and the replies it sends.
    [last_close] is the price lookup of a ticker, [None] when it raises. *)
Definition buy_handler (last_close : str -> option float) (utcnow : datetime)
  (message_text : str) (f : Storage.file)
  : result (Storage.file * list str) :=
  let text := strip message_text in
  match re_match buy_pattern text with
  | None => Ok (f, [])
  | Some m =>
    g <- group_text 1 m ;;
    let symbol := upper g in
    let ticker :=
      if endswith symbol (u ".NS") then symbol else symbol ++ u ".NS" in
    match last_close ticker with
    | None =>
      Ok (f, [u "⚠️ Couldn't fetch price for " ++ symbol
              ++ u ". Check symbol and try again."])
    | Some entry_price =>
      f' <- add_position utcnow symbol entry_price f ;;
      Ok (f', [u "✅ Recorded " ++ symbol ++ u " at ₹"
               ++ format_2f entry_price
               ++ u ". I'll watch this position!"])
    end
  end.

End Bot.


(** ** The position monitor ([src/monitor.py]) *)

Module Monitor.

(** The three files of the monitor: the text of [.chatid] and of
    [positions.json] when they exist, and whether [.monitor_active]
    exists. *)
Record files : Type := {
  chat_id_file : option str;
  positions_file : option json_text;
  monitor_flag_file : bool
}.

(** The literals [3.0] and [-2.0]. *)
Definition UP_THRESHOLD : float := float_of_int 3.
Definition DOWN_THRESHOLD : float := SFopp (float_of_int 2).

Definition get_chat_id (fs : files) : option str :=
  match chat_id_file fs with
  | None => None
  | Some text => Some (strip text)
  end.

Definition load_positions (fs : files) : result (list Position) :=
  match positions_file fs with
  | None => Ok []
  | Some (Encodes positions) => Ok positions
  | Some Malformed => Raise JSONDecodeError
  end.

(** [clear_positions()] writes the text [[]]. *)
Definition clear_positions (fs : files) : files :=
  {| chat_id_file := chat_id_file fs;
     positions_file := Some (Encodes []);
     monitor_flag_file := monitor_flag_file fs |}.

(** [((current - entry) / entry) * 100]. *)
Definition change_percent (entry current : float) : result float :=
  q <- fdiv (fsub current entry) entry ;;
  Ok (fmul q (float_of_int 100)).

Definition up_alert (symbol : str) (change current entry : float) : str :=
  u "📈 " ++ symbol ++ u " up " ++ format_2f change ++ u "% (₹"
  ++ format_2f current ++ u ") since entry ₹" ++ format_2f entry.

Definition down_alert (symbol : str) (change current entry : float) : str :=
  u "📉 " ++ symbol ++ u " down " ++ format_2f change ++ u "% (₹"
  ++ format_2f current ++ u ") since entry ₹" ++ format_2f entry.

Definition ticker_of (symbol : str) : str :=
  if endswith symbol (u ".NS") then symbol else symbol ++ u ".NS".

(** The body of the [for] of [monitor_loop] for one position: the alert it
    appends, if any.  [last_close] is the price lookup, the last close of a
    ticker, [None] when the lookup raises; the position is then skipped. *)
Definition position_alert (last_close : str -> option float) (p : Position)
  : result (option str) :=
  let entry := entry_price p in
  match last_close (ticker_of (symbol p)) with
  | None => Ok None
  | Some current =>
    change <- change_percent entry current ;;
    if fle UP_THRESHOLD change
    then Ok (Some (up_alert (symbol p) change current entry))
    else if fle change DOWN_THRESHOLD
    then Ok (Some (down_alert (symbol p) change current entry))
    else Ok None
  end.

Fixpoint collect_alerts (last_close : str -> option float)
  (positions : list Position) (alerts : list str) : result (list str) :=
  match positions with
  | [] => Ok alerts
  | p :: ps =>
    a <- position_alert last_close p ;;
    collect_alerts last_close ps
      (match a with Some line => alerts ++ [line] | None => alerts end)
  end.

(** A message sent: the chat it goes to and its text. *)
Definition message : Type := (str * str)%type.

(** One run of the coroutine [monitor_loop], from the test of its [while]
    to the next [asyncio.sleep] or to its return. *)
Inductive step : Type :=
| Sleeps (sent : list message)
| Returns.

Definition monitor_loop (last_close : str -> option float) (now : datetime)
  (fs : files) : result step :=
  if monitor_flag_file fs then
    positions <- load_positions fs ;;
    match positions with
    | [] => Ok (Sleeps [])
    | _ :: _ =>
      alerts <- collect_alerts last_close positions [] ;;
      match alerts with
      | [] => Ok (Sleeps [])
      | _ :: _ =>
        let msg :=
          u "🚨 Position Alerts (" ++ strftime_HM now ++ u "):" ++ NL ++ NL
          ++ join NL alerts in
        match get_chat_id fs with
        | Some (c :: cs) => Ok (Sleeps [(c :: cs, msg)])
        | _ => Ok (Sleeps [])
        end
      end
    end
  else Ok Returns.

(** A task made by [asyncio.create_task(monitor_loop(...))]: suspended
    before the test of the [while] (just created, or asleep), returned, or
    ended by an exception. *)
Inductive task : Type :=
| Suspended
| Finished
| Failed (e : exn).

(** The monitor process: its files, the loop tasks it has created, in
    order, and the messages it has sent. *)
Record process : Type := {
  fs : files;
  loops : list task;
  sent : list message
}.

Definition start_monitor (chat : Z) (pr : process) : process :=
  let chat_id := str_of_int chat in
  let fs1 := {| chat_id_file := Some chat_id;
                positions_file := positions_file (fs pr);
                monitor_flag_file := monitor_flag_file (fs pr) |} in
  let fs2 := clear_positions fs1 in
  let fs3 := {| chat_id_file := chat_id_file fs2;
                positions_file := positions_file fs2;
                monitor_flag_file := true |} in
  {| fs := fs3;
     loops := loops pr ++ [Suspended];
     sent := sent pr
             ++ [(chat_id, u "📊 Monitoring started. Alerts every 1 hour.")] |}.

(** [os.remove(MONITOR_FLAG_FILE)]. *)
Definition remove_flag (fs : files) : result files :=
  if monitor_flag_file fs
  then Ok {| chat_id_file := chat_id_file fs;
             positions_file := positions_file fs;
             monitor_flag_file := false |}
  else Raise FileNotFoundError.

Definition stop_monitor (chat : Z) (pr : process) : result process :=
  fs1 <- (if monitor_flag_file (fs pr) then remove_flag (fs pr)
          else Ok (fs pr)) ;;
  Ok {| fs := fs1;
        loops := loops pr;
        sent := sent pr ++ [(str_of_int chat, u "🛑 Monitoring stopped.")] |}.

Fixpoint set_nth {A : Type} (i : nat) (a : A) (l : list A) : list A :=
  match l, i with
  | [], _ => []
  | _ :: l', O => a :: l'
  | x :: l', S i' => x :: set_nth i' a l'
  end.

(** The event loop resumes the [i]-th loop task. *)
Definition wake (i : nat) (last_close : str -> option float) (now : datetime)
  (pr : process) : process :=
  match nth_error (loops pr) i with
  | Some Suspended =>
    match monitor_loop last_close now (fs pr) with
    | Ok (Sleeps msgs) =>
      {| fs := fs pr; loops := loops pr; sent := sent pr ++ msgs |}
    | Ok Returns =>
      {| fs := fs pr; loops := set_nth i Finished (loops pr); sent := sent pr |}
    | Raise e =>
      {| fs := fs pr; loops := set_nth i (Failed e) (loops pr);
         sent := sent pr |}
    end
  | _ => pr
  end.

Inductive event : Type :=
| Start (chat : Z)
| Stop (chat : Z)
| Wake (i : nat) (last_close : str -> option float) (now : datetime).

(** The process after an event; a handler that raises leaves it as it
    was. *)
Definition handle (pr : process) (ev : event) : process :=
  match ev with
  | Start chat => start_monitor chat pr
  | Stop chat =>
    match stop_monitor chat pr with
    | Ok pr' => pr'
    | Raise _ => pr
    end
  | Wake i last_close now => wake i last_close now pr
  end.

Definition run (evs : list event) (pr : process) : process :=
  fold_left handle evs pr.

(** The loop tasks that have neither returned nor failed. *)
Definition active_loops (pr : process) : nat :=
  length (filter (fun t => match t with Suspended => true | _ => false end)
                 (loops pr)).

(** A process that has created no loop task yet. *)
Definition fresh (fs0 : files) : process :=
  {| fs := fs0; loops := []; sent := [] |}.

End Monitor.

(** ** Vocabulary of the specification *)

(** The number that a run of decimal digits writes. *)
Definition number_of (s : str) : N :=
  fold_left (fun acc c => match digit_value c with
                          | Some d => acc * 10 + d
                          | None => acc * 10
                          end)%N s 0%N.

(** An amount: digits and thousands separators, at least one digit. *)
Definition valid_amount (amt : str) : bool :=
  forallb Bot.digit_or_comma amt && existsb isdigit amt.

(** The digits of an amount are within the bound of [int]. *)
Definition within_int_limit (amt : str) : bool :=
  (length (filter isdigit amt) <=? MAX_STR_DIGITS)%nat.

(** A decimal number: digits, and optionally a point and more digits. *)
Definition all_digits (s : str) : bool :=
  match s with
  | [] => false
  | _ :: _ => forallb isdigit s
  end.

Definition valid_decimal (ip : str) (fp : option str) : bool :=
  all_digits ip && match fp with Some f => all_digits f | None => true end.

Definition decimal_text (ip : str) (fp : option str) : str :=
  ip ++ match fp with Some f => DOT :: f | None => [] end.

Definition decimal_value (ip : str) (fp : option str) : float :=
  match fp with
  | Some f => float_of_decimal (number_of (ip ++ f)) (length f)
  | None => float_of_decimal (number_of ip) 0
  end.

(** The message [₹<amount> @ <percent>%], with the blanks [ws1], [ws2] and
    [ws3] between its parts, followed by [post]. *)
Definition command (ws1 amt ws2 ws3 pct post : str) : str :=
  Bot.RUPEE :: ws1 ++ amt ++ ws2 ++ Bot.AT :: ws3 ++ pct
  ++ Bot.PERCENT :: post.

(** *** Well-formed timestamps

    [iso8601 s]: [s] is a date and a time of ISO 8601 in the extended
    format, [YYYY-MM-DDThh:mm:ss] with an optional fraction of six digits,
    every field within its range. *)

Definition ascii_digit (c : N) : bool := ((0x30 <=? c) && (c <=? 0x39))%N.

(** Exactly [k] ASCII digits at the head of [s]: their number, and what
    follows them. *)
Fixpoint read_digits (k : nat) (acc : N) (s : str) : option (N * str) :=
  match k with
  | O => Some (acc, s)
  | S k' =>
    match s with
    | c :: s' =>
      if ascii_digit c then read_digits k' (acc * 10 + (c - 0x30))%N s'
      else None
    | [] => None
    end
  end.

Definition field (k : nat) (lo hi : N) (s : str) : option str :=
  match read_digits k 0 s with
  | Some (n, s') => if ((lo <=? n) && (n <=? hi))%N then Some s' else None
  | None => None
  end.

Definition expect (c : N) (s : str) : option str :=
  match s with
  | x :: s' => if (x =? c)%N then Some s' else None
  | [] => None
  end.

Definition and_then (o : option str) (k : str -> option str) : option str :=
  match o with
  | Some s => k s
  | None => None
  end.

Definition iso8601 (s : str) : bool :=
  match
    and_then (field 4 1 9999 s) (fun s =>
    and_then (expect HYPHEN s) (fun s =>
    and_then (field 2 1 12 s) (fun s =>
    and_then (expect HYPHEN s) (fun s =>
    and_then (field 2 1 31 s) (fun s =>
    and_then (expect LETTER_T s) (fun s =>
    and_then (field 2 0 23 s) (fun s =>
    and_then (expect COLON s) (fun s =>
    and_then (field 2 0 59 s) (fun s =>
    and_then (expect COLON s) (fun s =>
    and_then (field 2 0 59 s) (fun s =>
    match s with
    | [] => Some []
    | _ => and_then (expect DOT s) (field 6 0 999999)
    end)))))))))))
  with
  | Some [] => true
  | _ => false
  end.

(** The fields of a [datetime] are within the ranges that the type
    allows. *)
Definition valid_datetime (dt : datetime) : bool :=
  ((1 <=? year dt) && (year dt <=? 9999)
   && (1 <=? month dt) && (month dt <=? 12)
   && (1 <=? day dt) && (day dt <=? 31)
   && (hour dt <=? 23) && (minute dt <=? 59) && (second dt <=? 59)
   && (microsecond dt <=? 999999))%N.

(** The record that [add_position] appends. *)
Definition new_position (utcnow : datetime) (sym : str) (price : float)
  : Position :=
  {| symbol := sym; entry_price := price; timestamp := isoformat utcnow |}.

(** Calls of [add_position], one after the other, each with its time,
    symbol and price. *)
Fixpoint add_all (adds : list (datetime * str * float)) (f : Storage.file)
  : result Storage.file :=
  match adds with
  | [] => Ok f
  | (utcnow, sym, price) :: adds' =>
    f' <- Storage.add_position utcnow sym price f ;;
    add_all adds' f'
  end.

Definition position_of (add : datetime * str * float) : Position :=
  new_position (fst (fst add)) (snd (fst add)) (snd add).

(** A resumption of a loop task, as an event. *)
Definition wake_event (w : nat * (str -> option float) * datetime)
  : Monitor.event :=
  Monitor.Wake (fst (fst w)) (snd (fst w)) (snd w).

(** A text without a line boundary: one line of an answer. *)
Definition one_line (s : str) : bool :=
  forallb (fun c => negb (is_linebreak c)) s.

(** ** Fixtures

    The scenario of the specification: one position, AAA entered at 100,
    and a price lookup that knows its ticker only; a time, the monitor
    before any file exists, two answers of the first agent, the first with
    hyphens and the second with en dashes, and a language model that is
    out of service. *)

Definition AAA : Position :=
  {| symbol := u "AAA"; entry_price := float_of_int 100;
     timestamp := u "2024-01-02T03:04:05" |}.

Definition quote (price : Z) : str -> option float :=
  fun ticker => if str_eqb ticker (u "AAA.NS")
                then Some (float_of_int price) else None.

Definition noon : datetime :=
  {| year := 2024; month := 1; day := 2; hour := 12; minute := 0;
     second := 5; microsecond := 250 |}.

Definition no_files : Monitor.files :=
  {| Monitor.chat_id_file := None; Monitor.positions_file := None;
     Monitor.monitor_flag_file := false |}.

Definition hyphen_answer : str :=
  u "TCS - strong momentum" ++ NL ++ u "INFY - steady".

Definition dash_answer : list str :=
  [u "TCS – strong momentum"; u ""; u "  INFY – steady "].

Definition service_down : str -> result str := fun _ => Raise ServiceError.

(** An amount of 4301 digits. *)
Definition long_amount : str := repeat 0x31%N 4301.

(** The acknowledgement that [handle_message] sends before it asks the
    language model. *)
Definition ack_text (amount : Z) (percent : option float) : str :=
  u "✅ Received: ₹" ++ str_of_int amount ++ u ", target: "
  ++ Bot.percent_text percent ++ u "%" ++ NL ++ u "Fetching top 5 picks...".

(** The notice that stands for the sanity check when the second call
    fails. *)
Definition skipped_notice : str :=
  u "🔍 Sanity check: skipped (service limit)" ++ NL ++ NL.

(** The prompt of the second agent. *)
Definition validation_prompt (lines : list str) (percent : option float)
  : str :=
  u "Symbols: " ++ Bot.symbols lines ++ u ". Can each plausibly hit "
  ++ Bot.percent_text percent ++ u "% intraday profit? Yes or No.".

(** A language model that answers the first prompt for ₹20,000 @ 3.5% and
    is out of service afterwards. *)
Definition three_and_a_half : float :=
  S754_finite false 7881299347898368 (-51).

Definition first_call_only : str -> result str :=
  fun p => if str_eqb p (Bot.prompt 20000 (Some three_and_a_half))
           then Ok (join NL dash_answer) else Raise ServiceError.

(** A pattern without its capture groups. *)
Fixpoint ungroup (r : regex) : regex :=
  match r with
  | Group _ r1 => ungroup r1
  | Cat r1 r2 => Cat (ungroup r1) (ungroup r2)
  | Star r1 => Star (ungroup r1)
  | Plus r1 => Plus (ungroup r1)
  | Opt r1 => Opt (ungroup r1)
  | _ => r
  end.

(** Two states at the same place of the same text. *)
Definition same_place (st1 st2 : mstate) : Prop :=
  pos st1 = pos st2 /\ rest st1 = rest st2.

(** Capital letters and dots: what the symbol of a purchase is made of. *)
Definition capital (c : N) : bool :=
  ((c =? DOT) || (0x41 <=? c) && (c <=? 0x5A) || (c =? 0x130)
   || (c =? 0x212A))%N.

Definition fetch_failed_reply (sym : str) : str :=
  u "⚠️ Couldn't fetch price for " ++ sym
  ++ u ". Check symbol and try again.".

Definition recorded_reply (sym : str) (price : float) : str :=
  u "✅ Recorded " ++ sym ++ u " at ₹" ++ format_2f price
  ++ u ". I'll watch this position!".

(** The text of an alert message: the header with the time of day, a blank
    line and the alerts, one to a line. *)
Definition alerts_message (now : datetime) (alerts : list str) : str :=
  u "🚨 Position Alerts (" ++ strftime_HM now ++ u "):" ++ NL ++ NL
  ++ join NL alerts.

(** The alert line of a position, if it has one in this cycle. *)
Definition alert_lines (last_close : str -> option float) (p : Position)
  : list str :=
  match Monitor.position_alert last_close p with
  | Ok (Some line) => [line]
  | _ => []
  end.


(** [x == 0.0]. *)
Definition is_zero (x : float) : bool :=
  match x with S754_zero _ => true | _ => false end.

(** A loop task that has returned or failed. *)
Definition ended (t : Monitor.task) : bool :=
  match t with Monitor.Suspended => false | _ => true end.

(** The chats that have sent a command. *)
Definition command_chats (evs : list Monitor.event) : list str :=
  flat_map (fun ev =>
              match ev with
              | Monitor.Start chat | Monitor.Stop chat => [str_of_int chat]
              | Monitor.Wake _ _ _ => []
              end) evs.

Definition stopped_reply : str := u "🛑 Monitoring stopped.".

(** A position entered at price zero, and a monitor that is watching the
    given positions for chat 7 with one loop task. *)
Definition free_share : Position :=
  {| symbol := u "AAA"; entry_price := S754_zero false;
     timestamp := u "2024-01-02T03:04:05" |}.

Definition watching (positions : list Position) : Monitor.process :=
  {| Monitor.fs :=
       {| Monitor.chat_id_file := Some (u "7");
          Monitor.positions_file := Some (Encodes positions);
          Monitor.monitor_flag_file := true |};
     Monitor.loops := [Monitor.Suspended];
     Monitor.sent := [] |}.

(** * Properties *)

Unset Implicit Arguments.

(** ** The embedding on concrete inputs *)

Example str_examples :
  u "₹" = [0x20B9%N] /\ u "📈" = [0x1F4C8%N]
  /\ splitlines (u "a" ++ NL ++ NL ++ u "b" ++ [0xD; 0xA]%N) = [u "a"; []; u "b"]
  /\ splitlines (u "a" ++ NL ++ [0xD%N]) = [u "a"; []]
  /\ split 0x2013 (u "TCS – big – bank") = [u "TCS "; u " big "; u " bank"]
  /\ strip (u "  x y  ") = u "x y"
  /\ endswith (u "TCS.NS") (u ".NS") = true
  /\ endswith (u "NS") (u ".NS") = false.
Proof. vm_compute. repeat split. Qed.

Example number_examples :
  str_of_int 20000 = u "20000" /\ str_of_int 0 = u "0"
  /\ py_int (u "20000") = Ok 20000%Z /\ py_int (u "०७") = Ok 7%Z
  /\ py_int [] = Raise ValueError
  /\ py_float (u "3.5") = Ok (S754_finite false 7881299347898368 (-51))
  /\ py_float (u "20000") = Ok (float_of_int 20000)
  /\ py_float (u "0.1") = Ok (S754_finite false 7205759403792794 (-56))
  /\ float_repr (S754_finite false 7881299347898368 (-51)) = u "3.5"
  /\ float_repr (float_of_int 3) = u "3.0"
  /\ format_2f (S754_finite false 7205759403792794 (-56)) = u "0.10"
  /\ format_2f (SFopp (float_of_int 3)) = u "-3.00".
Proof. vm_compute. repeat split. Qed.

Example parse_input_examples :
  Bot.parse_input (u "₹20,000 @ 3.5%")
  = Ok (Some 20000%Z, Some (S754_finite false 7881299347898368 (-51)))
  /\ Bot.parse_input (u "please ₹ 1,5 @7% now")
     = Ok (Some 15%Z, Some (float_of_int 7))
  /\ Bot.handle_message (fun _ => Raise ServiceError) (u "₹20,000 @ 3.5%")
     = Ok [ u "✅ Received: ₹20000, target: 3.5%" ++ NL
            ++ u "Fetching top 5 picks...";
            Bot.failure_reply ].
Proof. vm_compute. repeat split. Qed.

Example monitor_scenario :
  Monitor.position_alert (quote 104) AAA
  = Ok (Some (u "📈 AAA up 4.00% (₹104.00) since entry ₹100.00"))
  /\ Monitor.position_alert (quote 97) AAA
     = Ok (Some (u "📉 AAA down -3.00% (₹97.00) since entry ₹100.00"))
  /\ Monitor.position_alert (quote 101) AAA = Ok None.
Proof. vm_compute. repeat split. Qed.

(** ** Alert classification (C1) *)






(** Prices that land exactly on a threshold: 103 and 98 against an entry of
    100 give the changes [3.0] and [-2.0], and both raise an alert. *)
Example boundary_alerts :
  Monitor.change_percent (float_of_int 100) (float_of_int 103)
  = Ok Monitor.UP_THRESHOLD
  /\ Monitor.change_percent (float_of_int 100) (float_of_int 98)
     = Ok Monitor.DOWN_THRESHOLD
  /\ Monitor.position_alert (quote 103) AAA
     = Ok (Some (u "📈 AAA up 3.00% (₹103.00) since entry ₹100.00"))
  /\ Monitor.position_alert (quote 98) AAA
     = Ok (Some (u "📉 AAA down -2.00% (₹98.00) since entry ₹100.00"))
  /\ Monitor.change_percent (S754_zero false) (float_of_int 98)
     = Raise ZeroDivisionError.
Proof. vm_compute. repeat split. Qed.

(** The alerts of a cycle are those of its positions, in their order, as
    long as no position raises. *)
Lemma collect_alerts_all (last_close : str -> option float)
  (positions : list Position) :
  forall alerts : list str,
    (forall p, In p positions ->
               exists a, Monitor.position_alert last_close p = Ok a) ->
    Monitor.collect_alerts last_close positions alerts
    = Ok (alerts
          ++ flat_map (fun p =>
                         match Monitor.position_alert last_close p with
                         | Ok (Some line) => [line]
                         | _ => []
                         end) positions).
Proof.
  induction positions as [ | p ps IH]; intros alerts H.
  - simpl. now rewrite app_nil_r.
  - cbn [Monitor.collect_alerts flat_map].
    destruct (H p (or_introl eq_refl)) as [a Ha]. rewrite Ha. cbn [bind].
    rewrite IH by (intros q Hq; apply H; now right).
    destruct a as [line | ]; [now rewrite <- app_assoc | reflexivity].
Qed.

Example monitor_cycle :
  Monitor.monitor_loop (quote 104) noon
    {| Monitor.chat_id_file := Some (u "42");
       Monitor.positions_file := Some (Encodes [AAA; AAA]);
       Monitor.monitor_flag_file := true |}
  = Ok (Monitor.Sleeps
          [(u "42",
            u "🚨 Position Alerts (12:00):" ++ NL ++ NL
            ++ u "📈 AAA up 4.00% (₹104.00) since entry ₹100.00" ++ NL
            ++ u "📈 AAA up 4.00% (₹104.00) since entry ₹100.00")]).
Proof. vm_compute. reflexivity. Qed.

(** ** The first match of a pattern *)

Lemma hd_error_app_some (A : Type) (l l' : list A) (a : A) :
  hd_error l = Some a -> hd_error (l ++ l') = Some a.
Proof. destruct l; simpl; congruence. Qed.

Lemma hd_error_flat_map (A B : Type) (f : A -> list B) (l : list A)
  (a : A) (b : B) :
  hd_error l = Some a -> hd_error (f a) = Some b ->
  hd_error (flat_map f l) = Some b.
Proof.
  destruct l as [ | x l]; simpl; [discriminate | ].
  intros [= ->] Hb. now apply hd_error_app_some.
Qed.

Lemma first_cat (r1 r2 : regex) (st st1 st2 : mstate) :
  first_match r1 st st1 -> first_match r2 st1 st2 ->
  first_match (r1 >> r2) st st2.
Proof. unfold first_match. simpl. apply hd_error_flat_map. Qed.

Lemma first_lit (c : N) (n : nat) (tl : str) (g : list (nat * str)) :
  first_match (Lit c) (MState n (c :: tl) g) (MState (S n) tl g).
Proof. unfold first_match. simpl. unfold eat. simpl. now rewrite N.eqb_refl. Qed.

Lemma eat_stops (p : N -> bool) (n : nat) (tl : str) (g : list (nat * str)) :
  stops p tl = true -> eat p (MState n tl g) = [].
Proof.
  unfold eat. simpl. destruct tl as [ | c tl]; [reflexivity | ].
  simpl. now destruct (p c).
Qed.

Lemma eat_cons (p : N -> bool) (c : N) (n : nat) (tl : str)
  (g : list (nat * str)) :
  p c = true -> eat p (MState n (c :: tl) g) = [MState (S n) tl g].
Proof. unfold eat. simpl. now intros ->. Qed.

Lemma star_run (p : N -> bool) (ws : str) :
  forall (fuel n : nat) (tl : str) (g : list (nat * str)),
    forallb p ws = true -> stops p tl = true ->
    length (ws ++ tl) <= fuel ->
    hd_error (star (eat p) fuel (MState n (ws ++ tl) g))
    = Some (MState (n + length ws) tl g).
Proof.
  induction ws as [ | c ws IH]; intros fuel n tl g Hws Htl Hfuel.
  - simpl. rewrite Nat.add_0_r.
    destruct fuel; [reflexivity | ].
    simpl. now rewrite eat_stops.
  - simpl in Hws. apply andb_prop in Hws. destruct Hws as [Hc Hws].
    destruct fuel as [ | fuel]; [simpl in Hfuel; lia | ].
    cbn [star]. change ((c :: ws) ++ tl) with (c :: ws ++ tl).
    rewrite (eat_cons p c n (ws ++ tl) g Hc). cbn [flat_map rest length].
    replace (length (ws ++ tl) <? S (length (ws ++ tl))) with true
      by (symmetry; apply Nat.ltb_lt; lia).
    rewrite app_nil_r. apply hd_error_app_some.
    rewrite IH; [ | assumption | assumption | simpl in Hfuel; lia].
    f_equal. f_equal. simpl. lia.
Qed.

Lemma first_star (p : N -> bool) (ws : str) (n : nat) (tl : str)
  (g : list (nat * str)) :
  forallb p ws = true -> stops p tl = true ->
  first_match (Star (Cls p)) (MState n (ws ++ tl) g)
              (MState (n + length ws) tl g).
Proof.
  intros Hws Htl. unfold first_match.
  change (ms (Star (Cls p)) (MState n (ws ++ tl) g))
    with (star (eat p) (length (ws ++ tl)) (MState n (ws ++ tl) g)).
  now apply star_run.
Qed.

Lemma first_plus (p : N -> bool) (ws : str) (n : nat) (tl : str)
  (g : list (nat * str)) :
  ws <> [] -> forallb p ws = true -> stops p tl = true ->
  first_match (Plus (Cls p)) (MState n (ws ++ tl) g)
              (MState (n + length ws) tl g).
Proof.
  intros Hne Hws Htl. destruct ws as [ | c ws]; [congruence | ].
  simpl in Hws. apply andb_prop in Hws. destruct Hws as [Hc Hws].
  unfold first_match.
  change (ms (Plus (Cls p)) (MState n ((c :: ws) ++ tl) g))
    with (flat_map (fun st' => star (eat p) (length (rest st')) st')
                   (eat p (MState n (c :: ws ++ tl) g))).
  rewrite (eat_cons p c n (ws ++ tl) g Hc).
  cbn [flat_map rest]. rewrite app_nil_r.
  rewrite star_run; [ | assumption | assumption | lia].
  f_equal. f_equal. simpl. lia.
Qed.

Lemma first_group (i : nat) (r : regex) (st st' : mstate) :
  first_match r st st' ->
  first_match (Group i r) st (close_group i st st').
Proof.
  unfold first_match. simpl.
  destruct (ms r st); simpl; [discriminate | ]. now intros [= ->].
Qed.

Lemma first_opt_taken (r : regex) (st st' : mstate) :
  first_match r st st' -> first_match (Opt r) st st'.
Proof. unfold first_match. simpl. apply hd_error_app_some. Qed.

Lemma first_opt_skipped (r : regex) (st : mstate) :
  ms r st = [] -> first_match (Opt r) st st.
Proof. unfold first_match. simpl. now intros ->. Qed.

Lemma close_group_run (i n : nat) (w tl : str) (g g' : list (nat * str)) :
  close_group i (MState n (w ++ tl) g) (MState (n + length w) tl g')
  = MState (n + length w) tl ((i, w) :: g').
Proof.
  unfold close_group. simpl. f_equal. f_equal. f_equal.
  replace (n + length w - n) with (length w) by lia.
  rewrite firstn_app, firstn_all, Nat.sub_diag. simpl.
  now rewrite app_nil_r.
Qed.

Lemma search_first (r : regex) (text : str) (st : mstate) :
  first_match r (MState 0 text []) st -> re_search r text = Some st.
Proof.
  unfold first_match, re_search. destruct text; simpl;
    destruct (ms r _); simpl; congruence.
Qed.

(** ** The character classes of the pattern are disjoint *)

Lemma isspace_In (c : N) : isspace c = true -> In c whitespace.
Proof.
  unfold isspace. intros H. apply existsb_exists in H.
  destruct H as [x [Hx Hc]]. apply N.eqb_eq in Hc. now subst.
Qed.

Lemma space_not_digit_or_comma (c : N) :
  isspace c = true -> Bot.digit_or_comma c = false.
Proof.
  intros H. apply isspace_In in H.
  assert (A : forallb (fun x => negb (Bot.digit_or_comma x)) whitespace
              = true) by (vm_compute; reflexivity).
  rewrite forallb_forall in A. specialize (A c H).
  now apply negb_true_iff in A.
Qed.

Lemma digit_or_comma_not_space (c : N) :
  Bot.digit_or_comma c = true -> isspace c = false.
Proof.
  intros H. destruct (isspace c) eqn:E; [ | reflexivity].
  apply space_not_digit_or_comma in E. congruence.
Qed.

Lemma digit_is_digit_or_comma (c : N) :
  isdigit c = true -> Bot.digit_or_comma c = true.
Proof. unfold Bot.digit_or_comma. now intros ->. Qed.

Lemma digit_not (c x : N) : isdigit x = false -> isdigit c = true -> c <> x.
Proof. intros Hx Hc ->. congruence. Qed.

Lemma stops_app (p : N -> bool) (l tl : str) :
  (forall c, In c l -> p c = false) -> stops p tl = true ->
  stops p (l ++ tl) = true.
Proof.
  destruct l as [ | c l]; simpl; [easy | ].
  intros H _. rewrite (H c); auto.
Qed.

Lemma forallb_In (p : N -> bool) (l : str) (c : N) :
  forallb p l = true -> In c l -> p c = true.
Proof. intros H. rewrite forallb_forall in H. apply H. Qed.

Lemma all_digits_forallb (s : str) :
  all_digits s = true -> s <> [] /\ forallb isdigit s = true.
Proof. destruct s; simpl; [discriminate | ]. intros H. split; congruence. Qed.
Lemma stops_app_ne (p : N -> bool) (l tl : str) :
  l <> [] -> (forall c, In c l -> p c = false) -> stops p (l ++ tl) = true.
Proof.
  destruct l as [ | c l]; simpl; [congruence | ].
  intros _ H. rewrite (H c); auto.
Qed.

Lemma decimal_first_match (ip : str) (fp : option str) (post : str)
  (m : nat) (g : list (nat * str)) :
  valid_decimal ip fp = true ->
  first_match (Plus (Cls isdigit) >> Opt (Lit DOT >> Plus (Cls isdigit)))
    (MState m (decimal_text ip fp ++ Bot.PERCENT :: post) g)
    (MState (m + length (decimal_text ip fp)) (Bot.PERCENT :: post) g).
Proof.
  intros Hd. unfold valid_decimal in Hd. apply andb_prop in Hd.
  destruct Hd as [Hip Hfp].
  apply all_digits_forallb in Hip. destruct Hip as [Hipne Hip].
  unfold decimal_text. destruct fp as [f | ].
  - apply all_digits_forallb in Hfp. destruct Hfp as [Hfne Hf].
    rewrite <- app_assoc. cbn [app].
    replace (m + length (ip ++ DOT :: f))
      with (S (m + length ip) + length f)
      by (rewrite length_app; simpl; lia).
    eapply first_cat.
    { apply first_plus; [exact Hipne | exact Hip | reflexivity]. }
    apply first_opt_taken.
    eapply first_cat; [apply first_lit | ].
    apply first_plus; [exact Hfne | exact Hf | reflexivity].
  - rewrite !app_nil_r.
    eapply first_cat.
    { apply first_plus; [exact Hipne | exact Hip | reflexivity]. }
    apply first_opt_skipped. reflexivity.
Qed.

Lemma pattern_first_match (ws1 amt ws2 ws3 ip : str) (fp : option str)
  (post : str) (n : nat) :
  forallb isspace ws1 = true -> forallb isspace ws2 = true ->
  forallb isspace ws3 = true ->
  valid_amount amt = true -> valid_decimal ip fp = true ->
  exists k,
    first_match Bot.pattern
      (MState n (command ws1 amt ws2 ws3 (decimal_text ip fp) post) [])
      (MState k post [(2, decimal_text ip fp); (1, amt)]).
Proof.
  intros H1 H2 H3 Ha Hd.
  unfold valid_amount in Ha. apply andb_prop in Ha. destruct Ha as [Ha Hex].
  assert (Hane : amt <> []) by (destruct amt; [discriminate | discriminate]).
  unfold valid_decimal in Hd. apply andb_prop in Hd. destruct Hd as [Hip Hfp].
  apply all_digits_forallb in Hip. destruct Hip as [Hipne Hip].
  assert (Hdig_sp : forall s c, forallb isdigit s = true -> In c s ->
                                isspace c = false).
  { intros s c Hs Hc. apply digit_or_comma_not_space,
      digit_is_digit_or_comma. exact (forallb_In _ _ _ Hs Hc). }
  eexists. unfold Bot.pattern, command.
  eapply first_cat; [apply first_lit | ].
  eapply first_cat.
  { apply first_star; [exact H1 | ].
    apply stops_app_ne; [exact Hane | ].
    intros c Hc. apply digit_or_comma_not_space.
    exact (forallb_In _ _ _ Ha Hc). }
  eapply first_cat.
  { apply first_group. apply first_plus; [exact Hane | exact Ha | ].
    apply stops_app; [ | reflexivity].
    intros c Hc. apply space_not_digit_or_comma.
    exact (forallb_In _ _ _ H2 Hc). }
  rewrite close_group_run.
  eapply first_cat.
  { apply first_star; [exact H2 | reflexivity]. }
  eapply first_cat; [apply first_lit | ].
  eapply first_cat.
  { apply first_star; [exact H3 | ].
    unfold decimal_text. rewrite <- app_assoc.
    apply stops_app_ne; [exact Hipne | ].
    intros c Hc. exact (Hdig_sp _ _ Hip Hc). }
  eapply first_cat.
  { apply first_group. apply decimal_first_match.
    unfold valid_decimal. rewrite Hfp.
    destruct ip; [congruence | ]. simpl in *. now rewrite Hip. }
  rewrite close_group_run. apply first_lit.
Qed.

(** ** The conversions of [parse_input] *)

Lemma replace_commas (amt : str) :
  forallb Bot.digit_or_comma amt = true ->
  replace Bot.COMMA [] amt = filter isdigit amt.
Proof.
  unfold replace. induction amt as [ | c amt IH]; [reflexivity | ].
  simpl. intros H. apply andb_prop in H. destruct H as [Hc H].
  rewrite (IH H). unfold Bot.digit_or_comma in Hc.
  destruct (N.eqb_spec c Bot.COMMA) as [-> | Hne].
  - reflexivity.
  - rewrite orb_false_r in Hc. now rewrite Hc.
Qed.

Lemma digits_value_fold (s : str) :
  forall acc, forallb isdigit s = true ->
    digits_value acc s
    = Some (fold_left (fun a c => match digit_value c with
                                  | Some d => a * 10 + d
                                  | None => a * 10
                                  end)%N s acc).
Proof.
  induction s as [ | c s IH]; intros acc H; [reflexivity | ].
  simpl in *. apply andb_prop in H. destruct H as [Hc H].
  unfold isdigit in Hc. destruct (digit_value c); [ | discriminate].
  now apply IH.
Qed.

Lemma py_int_digits (s : str) :
  s <> [] -> forallb isdigit s = true ->
  (length s <=? MAX_STR_DIGITS)%nat = true ->
  py_int s = Ok (Z.of_N (number_of s)).
Proof.
  intros Hne H Hlen. unfold py_int, number_of.
  rewrite Hlen, (digits_value_fold s 0%N H). destruct s; congruence.
Qed.

Lemma py_int_too_long (s : str) :
  (length s <=? MAX_STR_DIGITS)%nat = false -> py_int s = Raise ValueError.
Proof. intros Hlen. unfold py_int. rewrite Hlen. now destruct s. Qed.

Lemma filter_digits (amt : str) :
  existsb isdigit amt = true ->
  filter isdigit amt <> [] /\ forallb isdigit (filter isdigit amt) = true.
Proof.
  intros H. split.
  - apply existsb_exists in H. destruct H as [c [Hin Hc]].
    intros E. assert (Hf : In c (filter isdigit amt))
      by (apply filter_In; auto).
    rewrite E in Hf. contradiction.
  - apply forallb_forall. intros c Hc. apply filter_In in Hc. tauto.
Qed.

Lemma split_no_sep (sep : N) (s : str) :
  (forall c, In c s -> c <> sep) -> split sep s = [s].
Proof.
  induction s as [ | c s IH]; [reflexivity | ].
  intros H. simpl.
  destruct (N.eqb_spec c sep) as [E | _].
  - exfalso. apply (H c); [now left | exact E].
  - rewrite IH; [reflexivity | ]. intros x Hx. apply H. now right.
Qed.

Lemma split_at_sep (sep : N) (a b : str) :
  (forall c, In c a -> c <> sep) ->
  split sep (a ++ sep :: b) = a :: split sep b.
Proof.
  induction a as [ | c a IH]; intros H.
  - simpl. now rewrite N.eqb_refl.
  - simpl. destruct (N.eqb_spec c sep) as [E | _].
    + exfalso. apply (H c); [now left | exact E].
    + rewrite IH; [reflexivity | ]. intros x Hx. apply H. now right.
Qed.

Lemma digits_no_dot (s : str) :
  forallb isdigit s = true -> forall c, In c s -> c <> DOT.
Proof.
  intros H c Hc. apply (digit_not c DOT); [reflexivity | ].
  exact (forallb_In _ _ _ H Hc).
Qed.

Lemma py_float_decimal (ip : str) (fp : option str) :
  valid_decimal ip fp = true ->
  py_float (decimal_text ip fp) = Ok (decimal_value ip fp).
Proof.
  intros Hd. unfold valid_decimal in Hd. apply andb_prop in Hd.
  destruct Hd as [Hip Hfp].
  apply all_digits_forallb in Hip. destruct Hip as [Hipne Hip].
  unfold py_float, decimal_text, decimal_value. destruct fp as [f | ].
  - apply all_digits_forallb in Hfp. destruct Hfp as [Hfne Hf].
    rewrite split_at_sep by (now apply digits_no_dot).
    rewrite split_no_sep by (now apply digits_no_dot).
    assert (Hall : forallb isdigit (ip ++ f) = true)
      by (rewrite forallb_app, Hip, Hf; reflexivity).
    unfold number_of. rewrite (digits_value_fold (ip ++ f) 0%N Hall).
    destruct ip; [congruence | reflexivity].
  - rewrite app_nil_r.
    rewrite split_no_sep by (now apply digits_no_dot).
    unfold number_of. pose proof (digits_value_fold ip 0%N Hip) as E.
    destruct ip; [congruence | ]. lazy beta match. now rewrite E.
Qed.

(** C2, as stated, fails: a message of the shape ₹<amount> @ <percent>%
    whose amount has 4301 digits matches the pattern, and [int] raises
    [ValueError] on its digits, so that [parse_input] returns nothing. *)
Lemma long_amount_raises :
  valid_amount long_amount = true
  /\ valid_decimal (u "3") None = true
  /\ length long_amount = 4301
  /\ Bot.parse_input
       (command [] long_amount (u " ") (u " ") (decimal_text (u "3") None) [])
     = Raise ValueError.
Proof. vm_compute. repeat split. Qed.

(** C2, amended.  For every message of the shape ₹<amount> @ <percent>%,
    with any blanks between its parts, an amount of digits and thousands
    separators with at most 4300 digits, and a decimal percent,
    [parse_input] returns the number that the digits of the amount write,
    separators removed, and the binary64 nearest to the percent. *)
Theorem parse_input_valid :
  forall (ws1 amt ws2 ws3 ip : str) (fp : option str),
    forallb isspace ws1 = true -> forallb isspace ws2 = true ->
    forallb isspace ws3 = true ->
    valid_amount amt = true -> within_int_limit amt = true ->
    valid_decimal ip fp = true ->
    Bot.parse_input (command ws1 amt ws2 ws3 (decimal_text ip fp) [])
    = Ok (Some (Z.of_N (number_of (filter isdigit amt))),
          Some (decimal_value ip fp)).
Proof.
  intros ws1 amt ws2 ws3 ip fp H1 H2 H3 Ha Hlen Hd.
  destruct (pattern_first_match ws1 amt ws2 ws3 ip fp [] 0 H1 H2 H3 Ha Hd)
    as [k Hm].
  unfold Bot.parse_input. rewrite (search_first _ _ _ Hm).
  unfold Bot.group_text, group. cbn [groups assoc Nat.eqb bind].
  unfold valid_amount in Ha. apply andb_prop in Ha. destruct Ha as [Ha Hex].
  rewrite (replace_commas amt Ha).
  destruct (filter_digits amt Hex) as [Hne Hall].
  rewrite (py_int_digits _ Hne Hall Hlen). cbn [bind].
  now rewrite (py_float_decimal ip fp Hd).
Qed.

Lemma parse_input_valid_witness :
  Bot.parse_input (u "₹20,000 @ 3.5%")
  = Ok (Some 20000%Z, Some (S754_finite false 7881299347898368 (-51))).
Proof.
  exact (parse_input_valid [] (u "20,000") (u " ") (u " ") (u "3")
                           (Some (u "5")) eq_refl eq_refl eq_refl eq_refl
                           eq_refl eq_refl).
Defined.

Example iso_examples :
  isoformat noon = u "2024-01-02T12:00:05.000250"
  /\ iso8601 (isoformat noon) = true
  /\ iso8601 (u "2024-01-02T12:00:05") = true
  /\ iso8601 (u "2024-13-02T12:00:05") = false
  /\ iso8601 (u "2024-01-02 12:00:05") = false
  /\ iso8601 (u "2024-01-02T12:00:05.") = false.
Proof. vm_compute. repeat split. Qed.

(** ** Timestamps are well formed *)

Lemma read_digits_app (a b : nat) :
  forall (acc : N) (s : str),
    read_digits (a + b) acc s
    = match read_digits a acc s with
      | Some (acc', s') => read_digits b acc' s'
      | None => None
      end.
Proof.
  induction a as [ | a IH]; intros acc s; [reflexivity | ].
  simpl. destruct s as [ | c s]; [reflexivity | ].
  destruct (ascii_digit c); [apply IH | reflexivity].
Qed.

Lemma read_fixed_digits (k : nat) :
  forall (n acc : N) (tl : str),
    (n < 10 ^ N.of_nat k)%N ->
    read_digits k acc (fixed_digits k n ++ tl)
    = Some (acc * 10 ^ N.of_nat k + n, tl)%N.
Proof.
  induction k as [ | k IH]; intros n acc tl Hn.
  - simpl in *. f_equal. f_equal. lia.
  - rewrite Nat2N.inj_succ, N.pow_succ_r' in *.
    replace (S k) with (k + 1) by lia.
    rewrite read_digits_app. cbn [fixed_digits].
    replace (k + 1) with (S k) by lia. cbn [fixed_digits].
    rewrite <- app_assoc. cbn [app].
    assert (Hq : (n / 10 < 10 ^ N.of_nat k)%N)
      by (apply N.Div0.div_lt_upper_bound; lia).
    rewrite (IH _ acc _ Hq). cbn [read_digits].
    assert (Hr : (n mod 10 < 10)%N) by (apply N.mod_lt; lia).
    assert (Hdig : ascii_digit (48 + n mod 10) = true).
    { unfold ascii_digit. apply andb_true_intro. split; apply N.leb_le.
      all: clear - Hr; revert Hr; generalize (n mod 10)%N; intros r Hr; lia. }
    rewrite Hdig.
    f_equal. f_equal.
    pose proof (N.div_mod n 10 ltac:(lia)) as E.
    revert E. generalize (n / 10)%N (n mod 10)%N (10 ^ N.of_nat k)%N.
    intros q r P E.
    replace (48 + r - 48)%N with r by lia. rewrite E. ring.
Qed.

Lemma field_zero_padded (k : nat) (lo hi n : N) (tl : str) :
  (n < 10 ^ N.of_nat k)%N -> (lo <= n)%N -> (n <= hi)%N ->
  field k lo hi (zero_padded k n ++ tl) = Some tl.
Proof.
  intros Hn Hlo Hhi. unfold field, zero_padded.
  replace (n <? 10 ^ N.of_nat k)%N with true
    by (symmetry; now apply N.ltb_lt).
  rewrite (read_fixed_digits k n 0 tl Hn). cbn [N.mul N.add].
  replace (lo <=? n)%N with true by (symmetry; now apply N.leb_le).
  replace (n <=? hi)%N with true by (symmetry; now apply N.leb_le).
  reflexivity.
Qed.

Lemma expect_head (c : N) (tl : str) : expect c (c :: tl) = Some tl.
Proof. unfold expect. now rewrite N.eqb_refl. Qed.

Lemma isoformat_iso8601 (dt : datetime) :
  valid_datetime dt = true -> iso8601 (isoformat dt) = true.
Proof.
  unfold valid_datetime. rewrite !andb_true_iff, !N.leb_le.
  intros [[[[[[[[[Hy1 Hy2] Hm1] Hm2] Hd1] Hd2] Hh] Hmi] Hs] Hus].
  unfold iso8601, isoformat. cbn [app].
  rewrite field_zero_padded by (simpl; lia). cbn [and_then].
  rewrite expect_head. cbn [and_then].
  rewrite field_zero_padded by (simpl; lia). cbn [and_then].
  rewrite expect_head. cbn [and_then].
  rewrite field_zero_padded by (simpl; lia). cbn [and_then].
  rewrite expect_head. cbn [and_then].
  rewrite field_zero_padded by (simpl; lia). cbn [and_then].
  rewrite expect_head. cbn [and_then].
  rewrite field_zero_padded by (simpl; lia). cbn [and_then].
  rewrite expect_head. cbn [and_then].
  rewrite field_zero_padded by (simpl; lia). cbn [and_then].
  destruct (microsecond dt =? 0)%N; [reflexivity | ].
  rewrite expect_head. cbn [and_then].
  rewrite <- (app_nil_r (zero_padded 6 (microsecond dt))).
  rewrite field_zero_padded by (simpl; lia). reflexivity.
Qed.

(** ** The position store (C3, C4) *)

(** C3, as stated, fails: a positions file whose text is not JSON makes
    every [load_positions] raise, since none of the three catches what
    [json.load] raises. *)
Lemma load_positions_malformed :
  Storage.load_positions (Some Malformed) = Raise JSONDecodeError
  /\ Bot.load_positions (Some Malformed) = Raise JSONDecodeError
  /\ Monitor.load_positions
       {| Monitor.chat_id_file := None;
          Monitor.positions_file := Some Malformed;
          Monitor.monitor_flag_file := false |}
     = Raise JSONDecodeError.
Proof. repeat split. Qed.

(** C3, amended.  [load_positions] returns the empty sequence when the
    positions file is absent and the decoded sequence when its text is a
    JSON array; when the text fails to parse, the [JSONDecodeError] of
    [json.load] reaches the caller.  The same holds of the three copies, in
    [storage/db.py], [bot.py] and [monitor.py]. *)
Theorem load_positions_cases :
  (Storage.load_positions None = Ok []
   /\ (forall ps, Storage.load_positions (Some (Encodes ps)) = Ok ps)
   /\ Storage.load_positions (Some Malformed) = Raise JSONDecodeError)
  /\ (Bot.load_positions None = Ok []
      /\ (forall ps, Bot.load_positions (Some (Encodes ps)) = Ok ps)
      /\ Bot.load_positions (Some Malformed) = Raise JSONDecodeError)
  /\ (forall (chat : option str) (flag : bool),
        Monitor.load_positions
          {| Monitor.chat_id_file := chat; Monitor.positions_file := None;
             Monitor.monitor_flag_file := flag |} = Ok []
        /\ (forall ps,
               Monitor.load_positions
                 {| Monitor.chat_id_file := chat;
                    Monitor.positions_file := Some (Encodes ps);
                    Monitor.monitor_flag_file := flag |} = Ok ps)
        /\ Monitor.load_positions
             {| Monitor.chat_id_file := chat;
                Monitor.positions_file := Some Malformed;
                Monitor.monitor_flag_file := flag |}
           = Raise JSONDecodeError).
Proof. repeat split. Qed.

Lemma add_position_appends (f : Storage.file) (ps : list Position)
  (utcnow : datetime) (sym : str) (price : float) :
  Storage.load_positions f = Ok ps ->
  Storage.add_position utcnow sym price f
  = Ok (Some (Encodes (ps ++ [new_position utcnow sym price]))).
Proof. unfold Storage.add_position. now intros ->. Qed.

Lemma add_all_appends (adds : list (datetime * str * float)) :
  forall (f : Storage.file) (ps : list Position),
    Storage.load_positions f = Ok ps ->
    exists f',
      add_all adds f = Ok f'
      /\ Storage.load_positions f' = Ok (ps ++ map position_of adds).
Proof.
  induction adds as [ | [[t s] p] adds IH]; intros f ps Hload.
  - exists f. simpl. now rewrite app_nil_r.
  - simpl. rewrite (add_position_appends f ps t s p Hload). cbn [bind].
    destruct (IH (Some (Encodes (ps ++ [new_position t s p])))
                 (ps ++ [new_position t s p]) eq_refl) as [f' [Ha Hl]].
    exists f'. split; [exact Ha | ].
    rewrite Hl, <- app_assoc. reflexivity.
Qed.

(** C4.  On a store that holds the sequence [ps] (the file is absent and
    [ps] is empty, or the file is the JSON text of [ps]),
    [add_position(symbol, price)] followed by [load_positions()] yields
    [ps] with one record appended, of that symbol and price and with the
    ISO 8601 text of the UTC time of the call as its timestamp; on the
    empty store the result has that one element.  Any number of calls
    append their records in the order of the calls, after the entries that
    were there, which stay as they were.  [bot.py] has the same function. *)
Theorem add_then_load :
  forall (f : Storage.file) (ps : list Position) (utcnow : datetime)
         (sym : str) (price : float),
    Storage.load_positions f = Ok ps ->
    valid_datetime utcnow = true ->
    (exists f',
        Storage.add_position utcnow sym price f = Ok f'
        /\ Storage.load_positions f'
           = Ok (ps ++ [new_position utcnow sym price]))
    /\ symbol (new_position utcnow sym price) = sym
    /\ entry_price (new_position utcnow sym price) = price
    /\ iso8601 (timestamp (new_position utcnow sym price)) = true
    /\ (f = None ->
        exists f',
          Storage.add_position utcnow sym price f = Ok f'
          /\ Storage.load_positions f' = Ok [new_position utcnow sym price])
    /\ (forall adds : list (datetime * str * float),
           exists f',
             add_all adds f = Ok f'
             /\ Storage.load_positions f' = Ok (ps ++ map position_of adds))
    /\ Bot.add_position = Storage.add_position
    /\ Bot.load_positions = Storage.load_positions.
Proof.
  intros f ps utcnow sym price Hload Hnow.
  pose proof (add_position_appends f ps utcnow sym price Hload) as Hadd.
  repeat split.
  - eexists. split; [exact Hadd | reflexivity].
  - now apply isoformat_iso8601.
  - intros ->. simpl in Hload. injection Hload as <-.
    eexists. split; [exact Hadd | reflexivity].
  - intros adds. now apply add_all_appends.
Qed.

Lemma add_then_load_witness :
  exists f',
    Storage.add_position noon (u "TCS") (float_of_int 100) None = Ok f'
    /\ Storage.load_positions f'
       = Ok [new_position noon (u "TCS") (float_of_int 100)].
Proof.
  exact (proj1 (add_then_load None [] noon (u "TCS") (float_of_int 100)
                              eq_refl eq_refl)).
Defined.

(** ** Starting and stopping the monitor (C5, C7) *)

Lemma wake_idle (i : nat) (last_close : str -> option float) (now : datetime)
  (pr : Monitor.process) :
  Monitor.monitor_flag_file (Monitor.fs pr) = true ->
  Monitor.positions_file (Monitor.fs pr) = Some (Encodes []) ->
  Monitor.fs (Monitor.wake i last_close now pr) = Monitor.fs pr
  /\ Monitor.loops (Monitor.wake i last_close now pr) = Monitor.loops pr.
Proof.
  intros Hflag Hpos. unfold Monitor.wake.
  destruct (nth_error (Monitor.loops pr) i) as [[ | | e] | ]; try easy.
  unfold Monitor.monitor_loop, Monitor.load_positions.
  rewrite Hflag, Hpos. simpl. easy.
Qed.

Lemma run_wakes_idle (wakes : list (nat * (str -> option float) * datetime)) :
  forall pr : Monitor.process,
    Monitor.monitor_flag_file (Monitor.fs pr) = true ->
    Monitor.positions_file (Monitor.fs pr) = Some (Encodes []) ->
    Monitor.fs (Monitor.run (map wake_event wakes) pr) = Monitor.fs pr
    /\ Monitor.loops (Monitor.run (map wake_event wakes) pr)
       = Monitor.loops pr.
Proof.
  induction wakes as [ | [[i lc] now] wakes IH]; intros pr Hflag Hpos.
  - easy.
  - cbn [map Monitor.run fold_left wake_event Monitor.handle fst snd].
    destruct (wake_idle i lc now pr Hflag Hpos) as [Hfs Hloops].
    destruct (IH (Monitor.wake i lc now pr)) as [Hfs' Hloops'].
    + now rewrite Hfs.
    + now rewrite Hfs.
    + unfold Monitor.run in *. rewrite Hfs', Hloops'. easy.
Qed.

(** C5, as stated, fails: [start_monitor] creates a loop task on every
    call, so two starts in a row leave two active loops, not one. *)
Lemma start_twice_two_loops :
  Monitor.active_loops
    (Monitor.run [Monitor.Start 7; Monitor.Start 7] (Monitor.fresh no_files))
  = 2.
Proof. reflexivity. Qed.

(** C5, amended.  Two start commands in a row, whatever resumptions of the
    loop tasks happen between them, leave the position list cleared, the
    marker present and the second sender as the recipient; each start has
    launched a loop of its own, none checks whether one is running, and
    both loops are active after the second start. *)
Theorem start_twice :
  forall (fs0 : Monitor.files) (c1 c2 : Z)
         (wakes : list (nat * (str -> option float) * datetime)),
    let pr :=
      Monitor.run (Monitor.Start c1 :: map wake_event wakes
                   ++ [Monitor.Start c2])
                  (Monitor.fresh fs0) in
    Monitor.loops pr = [Monitor.Suspended; Monitor.Suspended]
    /\ Monitor.active_loops pr = 2
    /\ Monitor.load_positions (Monitor.fs pr) = Ok []
    /\ Monitor.monitor_flag_file (Monitor.fs pr) = true
    /\ Monitor.chat_id_file (Monitor.fs pr) = Some (str_of_int c2).
Proof.
  intros fs0 c1 c2 wakes. cbv zeta.
  unfold Monitor.run. cbn [fold_left Monitor.handle].
  rewrite fold_left_app. cbn [fold_left Monitor.handle].
  destruct (run_wakes_idle wakes
              (Monitor.start_monitor c1 (Monitor.fresh fs0)) eq_refl eq_refl)
    as [Hfs Hloops].
  unfold Monitor.run in Hfs, Hloops.
  remember (fold_left Monitor.handle (map wake_event wakes)
                      (Monitor.start_monitor c1 (Monitor.fresh fs0)))
    as pr1 eqn:E. clear E.
  unfold Monitor.active_loops, Monitor.start_monitor.
  cbn [Monitor.fs Monitor.loops Monitor.clear_positions
       Monitor.chat_id_file Monitor.positions_file
       Monitor.monitor_flag_file Monitor.load_positions].
  rewrite Hloops. repeat split.
Qed.

(** C7.  [stop_monitor] never raises.  It leaves the recipient file and
    the positions file as they were, and the loop tasks too; afterwards the
    marker is absent, and the reply has been sent.  When the marker was
    absent already, no file has changed at all. *)
Theorem stop_monitor_frame :
  forall (chat : Z) (pr : Monitor.process),
  exists pr' : Monitor.process,
    Monitor.stop_monitor chat pr = Ok pr'
    /\ Monitor.chat_id_file (Monitor.fs pr')
       = Monitor.chat_id_file (Monitor.fs pr)
    /\ Monitor.positions_file (Monitor.fs pr')
       = Monitor.positions_file (Monitor.fs pr)
    /\ Monitor.monitor_flag_file (Monitor.fs pr') = false
    /\ Monitor.loops pr' = Monitor.loops pr
    /\ Monitor.sent pr'
       = Monitor.sent pr ++ [(str_of_int chat, u "🛑 Monitoring stopped.")]
    /\ (Monitor.monitor_flag_file (Monitor.fs pr) = false ->
        Monitor.fs pr' = Monitor.fs pr).
Proof.
  intros chat pr. unfold Monitor.stop_monitor, Monitor.remove_flag.
  destruct (Monitor.monitor_flag_file (Monitor.fs pr)) eqn:Hflag;
    cbn [bind]; eexists; (split; [reflexivity | ]);
    cbn [Monitor.fs Monitor.loops Monitor.sent Monitor.chat_id_file
         Monitor.positions_file Monitor.monitor_flag_file];
    repeat split; try assumption; try discriminate.
Qed.

Example stop_examples :
  Monitor.fs (Monitor.run [Monitor.Stop 7] (Monitor.fresh no_files))
  = no_files
  /\ Monitor.loops
       (Monitor.run [Monitor.Start 7; Monitor.Stop 7;
                     Monitor.Wake 0 (quote 104) noon]
                    (Monitor.fresh no_files))
     = [Monitor.Finished]
  /\ Monitor.remove_flag no_files = Raise FileNotFoundError.
Proof. vm_compute. repeat split. Qed.

(** ** The lines of an answer (C6) *)

Lemma splitlines_line (r tl : str) :
  one_line r = true -> splitlines (r ++ 0xA%N :: tl) = r :: splitlines tl.
Proof.
  induction r as [ | c r IH]; intros H.
  - cbn [app splitlines].
    change (is_linebreak 10) with true. cbv iota.
    destruct tl; reflexivity.
  - unfold one_line in H. cbn [forallb] in H. apply andb_prop in H.
    destruct H as [Hc H]. apply negb_true_iff in Hc.
    cbn [app splitlines]. rewrite Hc, (IH H). reflexivity.
Qed.

Lemma splitlines_one_line (r : str) :
  one_line r = true ->
  splitlines r = match r with [] => [] | _ :: _ => [r] end.
Proof.
  induction r as [ | c r IH]; intros H; [reflexivity | ].
  unfold one_line in H. cbn [forallb] in H. apply andb_prop in H.
  destruct H as [Hc H]. apply negb_true_iff in Hc.
  cbn [splitlines]. rewrite Hc, (IH H). now destruct r.
Qed.

Lemma pick_lines_join (raws : list str) :
  forallb one_line raws = true ->
  Bot.pick_lines (join NL raws) = filter Bot.nonempty (map strip raws).
Proof.
  induction raws as [ | r raws IH]; intros H; [reflexivity | ].
  cbn [forallb] in H. apply andb_prop in H. destruct H as [Hr H].
  destruct raws as [ | r2 raws].
  - cbn [join map filter]. unfold Bot.pick_lines.
    rewrite (splitlines_one_line r Hr). now destruct r.
  - change (join NL (r :: r2 :: raws))
      with (r ++ 0xA%N :: join NL (r2 :: raws)).
    unfold Bot.pick_lines in *. rewrite (splitlines_line _ _ Hr).
    cbn [map filter]. now rewrite (IH H).
Qed.

Lemma before_dash_prefix (pre post : str) :
  ~ In Bot.EN_DASH pre ->
  Bot.before_dash (pre ++ Bot.EN_DASH :: post) = strip pre.
Proof.
  intros H. unfold Bot.before_dash. rewrite split_at_sep; [reflexivity | ].
  intros c Hc ->. contradiction.
Qed.

Lemma before_dash_whole (l : str) :
  ~ In Bot.EN_DASH l -> Bot.before_dash l = strip l.
Proof.
  intros H. unfold Bot.before_dash. rewrite split_no_sep; [reflexivity | ].
  intros c Hc ->. contradiction.
Qed.

Lemma numbering_nth (lines : list str) :
  forall (k : Z) (i : nat) (l : str),
    nth_error lines i = Some l ->
    nth_error (Bot.numbering k lines) i
    = Some (str_of_int (k + Z.of_nat i + 1) ++ u ". " ++ l).
Proof.
  induction lines as [ | x lines IH]; intros k i l H.
  - destruct i; discriminate.
  - destruct i as [ | i].
    + injection H as ->. cbn [Bot.numbering nth_error].
      now rewrite Z.add_0_r.
    + cbn [Bot.numbering nth_error]. cbn [nth_error] in H.
      rewrite (IH (k + 1)%Z i l H). do 3 f_equal. lia.
Qed.

Lemma numbering_length (lines : list str) :
  forall k : Z, length (Bot.numbering k lines) = length lines.
Proof.
  induction lines as [ | x lines IH]; intros k; [reflexivity | ].
  cbn [Bot.numbering length]. now rewrite IH.
Qed.

(** C6, as stated, fails: the separator that [handle_message] splits at is
    the en dash U+2013, so on lines separated by hyphens nothing is cut off
    and the whole line is the top pick and the symbol. *)
Lemma hyphen_lines_top_pick :
  Bot.top_pick (Bot.pick_lines hyphen_answer)
  = Ok (u "TCS - strong momentum")
  /\ Bot.symbols (Bot.pick_lines hyphen_answer)
     = u "TCS - strong momentum, INFY - steady".
Proof. vm_compute. split; reflexivity. Qed.

(** C6, amended.  When the answer of the first agent consists of the lines
    [raws], the lines kept are those that are not blank, stripped, in their
    order.  The top pick is the stripped text before the first en dash
    (U+2013) of the first of them, or that whole line when it has no en
    dash; the symbol list takes the stripped text before the first en dash
    of every line; the numbered listing has one entry per line, the [i]-th
    line under the number [i + 1], and it is what the final message shows
    between its head and the sanity check, before the top pick. *)
Theorem advice_extraction :
  forall raws : list str,
    forallb one_line raws = true ->
    let lines := filter Bot.nonempty (map strip raws) in
    Bot.pick_lines (join NL raws) = lines
    /\ (forall pre post rest,
           lines = (pre ++ Bot.EN_DASH :: post) :: rest ->
           ~ In Bot.EN_DASH pre ->
           Bot.top_pick lines = Ok (strip pre))
    /\ (forall l rest,
           lines = l :: rest -> ~ In Bot.EN_DASH l ->
           Bot.top_pick lines = Ok (strip l))
    /\ Bot.symbols lines = join (u ", ") (map Bot.before_dash lines)
    /\ (forall i pre post,
           nth_error lines i = Some (pre ++ Bot.EN_DASH :: post) ->
           ~ In Bot.EN_DASH pre ->
           nth_error (map Bot.before_dash lines) i = Some (strip pre))
    /\ Bot.numbered lines = join NL (Bot.numbering 0 lines)
    /\ length (Bot.numbering 0 lines) = length lines
    /\ (forall i l,
           nth_error lines i = Some l ->
           nth_error (Bot.numbering 0 lines) i
           = Some (str_of_int (Z.of_nat i + 1) ++ u ". " ++ l))
    /\ (forall (fetch : str -> result str) (amount : Z)
               (percent : option float) (top : str),
           fetch (Bot.prompt amount percent) = Ok (join NL raws) ->
           Bot.top_pick lines = Ok top ->
           Bot.advise fetch amount percent
           = Ok (Bot.picks_header amount percent ++ Bot.numbered lines
                 ++ NL ++ NL ++ Bot.sanity_check fetch lines percent
                 ++ u "⭐️ Top suggestion: " ++ top)).
Proof.
  intros raws Hraws lines.
  pose proof (pick_lines_join raws Hraws) as Hlines. fold lines in Hlines.
  split; [exact Hlines | ].
  split.
  { intros pre post rest E Hpre. rewrite E. cbn [Bot.top_pick].
    now rewrite before_dash_prefix. }
  split.
  { intros l rest E Hl. rewrite E. cbn [Bot.top_pick].
    now rewrite before_dash_whole. }
  split; [reflexivity | ].
  split.
  { intros i pre post E Hpre. rewrite nth_error_map, E. cbn [option_map].
    now rewrite before_dash_prefix. }
  split; [reflexivity | ].
  split; [apply numbering_length | ].
  split.
  { intros i l E. now rewrite (numbering_nth lines 0 i l E). }
  intros fetch amount percent top Hfetch Htop.
  unfold Bot.advise. rewrite Hfetch. cbn [bind].
  rewrite Hlines, Htop. cbn [bind]. now rewrite <- !app_assoc.
Qed.

Lemma advice_extraction_witness :
  Bot.pick_lines (join NL dash_answer)
  = [u "TCS – strong momentum"; u "INFY – steady"].
Proof.
  exact (proj1 (advice_extraction dash_answer eq_refl)).
Defined.

Example dash_lines :
  Bot.top_pick (Bot.pick_lines (join NL dash_answer)) = Ok (u "TCS")
  /\ Bot.symbols (Bot.pick_lines (join NL dash_answer)) = u "TCS, INFY"
  /\ Bot.numbered (Bot.pick_lines (join NL dash_answer))
     = u "1. TCS – strong momentum" ++ NL ++ u "2. INFY – steady"
  /\ Bot.advise (fun _ => Ok []) 5 None = Raise IndexError.
Proof. vm_compute. repeat split. Qed.

(** ** A match survives more text around it *)

Lemma carries_eat (p : N -> bool) (t : str) : carries t (eat p).
Proof.
  intros [n1 s1 g1] [n2 s2 g2] E st1' H. unfold extends in E. simpl in E.
  subst s2. unfold eat in *. simpl in *.
  destruct s1 as [ | c s1]; [contradiction | ]. simpl.
  destruct (p c); [ | contradiction].
  destruct H as [<- | []]. eexists. split; [now left | reflexivity].
Qed.

Lemma star_self (f : mstate -> list mstate) (fuel : nat) (st : mstate) :
  In st (star f fuel st).
Proof.
  destruct fuel; simpl; [now left | ]. apply in_or_app. right. now left.
Qed.

Lemma carries_star (f : mstate -> list mstate) (t : str) :
  carries t f ->
  forall (fuel1 fuel2 : nat) (st1 st2 : mstate),
    extends t st1 st2 ->
    length (rest st1) <= fuel1 -> length (rest st2) <= fuel2 ->
    forall st1', In st1' (star f fuel1 st1) ->
    exists st2', In st2' (star f fuel2 st2) /\ extends t st1' st2'.
Proof.
  intros Hf. induction fuel1 as [ | fuel1 IH];
    intros fuel2 st1 st2 E H1 H2 st1' Hin.
  - simpl in Hin. destruct Hin as [<- | []].
    exists st2. split; [apply star_self | exact E].
  - cbn [star] in Hin. apply in_app_or in Hin.
    destruct Hin as [Hin | [<- | []]].
    + apply in_flat_map in Hin. destruct Hin as [x [Hx Hin]].
      destruct (Nat.ltb_spec (length (rest x)) (length (rest st1)))
        as [Hlt | _]; [ | contradiction].
      destruct (Hf st1 st2 E x Hx) as [y [Hy Exy]].
      assert (Hlen : length (rest y) < length (rest st2)).
      { unfold extends in E, Exy. rewrite E, Exy, !length_app. lia. }
      destruct fuel2 as [ | fuel2]; [lia | ].
      destruct (IH fuel2 x y Exy ltac:(lia) ltac:(lia) st1' Hin)
        as [st2' [Hin2 E2]].
      exists st2'. split; [ | exact E2].
      cbn [star]. apply in_or_app. left. apply in_flat_map.
      exists y. split; [exact Hy | ].
      destruct (Nat.ltb_spec (length (rest y)) (length (rest st2)));
        [exact Hin2 | lia].
    + exists st2. split; [apply star_self | exact E].
Qed.

Lemma ms_carries (r : regex) (t : str) :
  anchor_free r = true -> carries t (ms r).
Proof.
  induction r as [c | p | r1 IH1 r2 IH2 | r1 IH | r1 IH | r1 IH | i r1 IH
                  | | ]; cbn [anchor_free]; intros Hfree;
    try discriminate.
  - apply carries_eat.
  - apply carries_eat.
  - apply andb_prop in Hfree. destruct Hfree as [F1 F2].
    intros st1 st2 E st1' Hin. cbn [ms] in *.
    apply in_flat_map in Hin. destruct Hin as [x [Hx Hin]].
    destruct (IH1 F1 st1 st2 E x Hx) as [y [Hy Exy]].
    destruct (IH2 F2 x y Exy st1' Hin) as [st2' [Hin2 E2]].
    exists st2'. split; [ | exact E2].
    apply in_flat_map. now exists y.
  - intros st1 st2 E st1' Hin. cbn [ms] in *.
    now apply (carries_star (ms r1) t (IH Hfree) _ _ st1 st2 E (le_n _)
                            (le_n _)).
  - intros st1 st2 E st1' Hin. cbn [ms] in *.
    apply in_flat_map in Hin. destruct Hin as [x [Hx Hin]].
    destruct (IH Hfree st1 st2 E x Hx) as [y [Hy Exy]].
    destruct (carries_star (ms r1) t (IH Hfree) _ _ x y Exy (le_n _)
                           (le_n _) st1' Hin) as [st2' [Hin2 E2]].
    exists st2'. split; [ | exact E2].
    apply in_flat_map. now exists y.
  - intros st1 st2 E st1' Hin. cbn [ms] in *.
    apply in_app_or in Hin. destruct Hin as [Hin | [<- | []]].
    + destruct (IH Hfree st1 st2 E st1' Hin) as [st2' [Hin2 E2]].
      exists st2'. split; [apply in_or_app; now left | exact E2].
    + exists st2. split; [apply in_or_app; right; now left | exact E].
  - intros st1 st2 E st1' Hin. cbn [ms] in *.
    apply in_map_iff in Hin. destruct Hin as [x [<- Hx]].
    destruct (IH Hfree st1 st2 E x Hx) as [y [Hy Exy]].
    exists (close_group i st2 y). split; [now apply in_map | exact Exy].
Qed.

Lemma search_from_none (r : regex) (s : str) :
  forall n : nat,
    search_from r n s = None <->
    (forall k, k <= length s -> ms r (MState (n + k) (skipn k s) []) = []).
Proof.
  induction s as [ | c s IH]; intros n.
  - cbn [search_from]. split.
    + intros H k Hk. simpl in Hk. assert (k = 0) by lia. subst k.
      rewrite Nat.add_0_r. simpl. now destruct (ms r (MState n [] [])).
    + intros H. specialize (H 0 (le_n _)). rewrite Nat.add_0_r in H.
      simpl in H. now rewrite H.
  - cbn [search_from]. split.
    + intros H k Hk.
      destruct (ms r (MState n (c :: s) [])) eqn:E; [ | discriminate].
      destruct k as [ | k].
      * now rewrite Nat.add_0_r.
      * replace (n + S k) with (S n + k) by lia. cbn [skipn].
        apply (proj1 (IH (S n)) H). simpl in Hk. lia.
    + intros H. pose proof (H 0 (Nat.le_0_l _)) as H0.
      rewrite Nat.add_0_r in H0. cbn [skipn] in H0. rewrite H0.
      apply (proj2 (IH (S n))). intros k Hk.
      replace (S n + k) with (n + S k) by lia.
      apply (H (S k)). simpl. lia.
Qed.

Lemma search_within (r : regex) (pre mid post : str) :
  anchor_free r = true ->
  re_search r (pre ++ mid ++ post) = None -> re_search r mid = None.
Proof.
  intros Hfree Hnone. unfold re_search in *.
  apply search_from_none. intros k Hk.
  destruct (ms r (MState (0 + k) (skipn k mid) [])) as [ | x l] eqn:E;
    [reflexivity | exfalso].
  pose proof (proj1 (search_from_none r (pre ++ mid ++ post) 0) Hnone
                    (length pre + k)) as Hat.
  rewrite !length_app in Hat. specialize (Hat ltac:(lia)).
  assert (Ext : extends post (MState (0 + k) (skipn k mid) [])
                        (MState (0 + (length pre + k))
                                (skipn (length pre + k) (pre ++ mid ++ post))
                                [])).
  { unfold extends. cbn [rest].
    rewrite skipn_app, skipn_all2 by lia.
    replace (length pre + k - length pre) with k by lia.
    cbn [app]. rewrite skipn_app.
    replace (k - length mid) with 0 by lia. reflexivity. }
  destruct (ms_carries r post Hfree _ _ Ext x) as [y [Hy _]].
  { rewrite E. now left. }
  rewrite Hat in Hy. contradiction.
Qed.

Lemma lstrip_split (s : str) : exists pre, s = pre ++ lstrip s.
Proof.
  induction s as [ | c s [pre IH]]; [now exists [] | ].
  simpl. destruct (isspace c).
  - exists (c :: pre). simpl. now f_equal.
  - now exists [].
Qed.

Lemma rstrip_split (s : str) : exists post, s = rstrip s ++ post.
Proof.
  unfold rstrip. destruct (lstrip_split (rev s)) as [pre E].
  exists (rev pre). rewrite <- rev_app_distr, <- E. now rewrite rev_involutive.
Qed.

Lemma strip_split (s : str) : exists pre post, s = pre ++ strip s ++ post.
Proof.
  unfold strip. destruct (lstrip_split s) as [pre E].
  destruct (rstrip_split (lstrip s)) as [post E'].
  exists pre, post. now rewrite <- E', <- E.
Qed.

Lemma pattern_anchor_free : anchor_free Bot.pattern = true.
Proof. reflexivity. Qed.

Lemma search_stripped (text : str) :
  re_search Bot.pattern text = None ->
  re_search Bot.pattern (strip text) = None.
Proof.
  intros H. destruct (strip_split text) as [pre [post E]].
  rewrite E in H. exact (search_within _ _ _ _ pattern_anchor_free H).
Qed.

(** ** Messages that do not parse (C8, C9, C10) *)

(** C8, as stated, fails: a message of the form "I buy <symbol>" has no
    match of the pattern, and [handle_message] returns at its guard
    without any reply. *)
Lemma buy_line_gets_no_reply :
  re_search Bot.pattern (u "I buy TCS") = None
  /\ Bot.parse_input (u "I buy TCS") = Ok (None, None)
  /\ Bot.handle_message service_down (u "I buy TCS") = Ok [].
Proof. vm_compute. repeat split. Qed.

(** C8, amended.  When the pattern has no match anywhere in a message,
    [parse_input] returns [(None, None)], and [handle_message] sends the
    parse-error reply and nothing else, unless the stripped message is a
    line "I buy <symbol>", in which case it sends nothing.  "hello" and
    "₹abc @ 3%" get the parse-error reply. *)
Theorem unparsed_message :
  forall (fetch : str -> result str) (text : str),
    re_search Bot.pattern text = None ->
    Bot.parse_input text = Ok (None, None)
    /\ Bot.handle_message fetch text
       = Ok (match re_match Bot.buy_line (strip text) with
             | Some _ => []
             | None => [Bot.parse_error_reply]
             end)
    /\ Bot.handle_message fetch (u "hello") = Ok [Bot.parse_error_reply]
    /\ Bot.handle_message fetch (u "₹abc @ 3%") = Ok [Bot.parse_error_reply].
Proof.
  intros fetch text Hnone.
  assert (Hparse : forall t, re_search Bot.pattern t = None ->
                             Bot.parse_input t = Ok (None, None)).
  { intros t Ht. unfold Bot.parse_input. now rewrite Ht. }
  split; [now apply Hparse | ].
  split.
  { unfold Bot.handle_message.
    rewrite (Hparse _ (search_stripped text Hnone)).
    now destruct (re_match Bot.buy_line (strip text)). }
  split; reflexivity.
Qed.

Lemma unparsed_message_witness :
  Bot.parse_input (u " hello ") = Ok (None, None)
  /\ Bot.handle_message service_down (u " hello ")
     = Ok [Bot.parse_error_reply].
Proof.
  pose proof (unparsed_message service_down (u " hello ") eq_refl) as H.
  exact (conj (proj1 H) (proj1 (proj2 H))).
Defined.

(** C10 fails on the code: an amount of commas only matches group 1 of the
    pattern, [replace] leaves the empty string, and [int] raises
    [ValueError] instead of a pair being returned; the exception leaves
    [handle_message] too, and no reply is sent. *)
Lemma comma_only_amount_raises :
  option_map (group 1) (re_search Bot.pattern (u "₹, @ 3%"))
  = Some (Some (u ","))
  /\ Bot.parse_input (u "₹, @ 3%") = Raise ValueError
  /\ Bot.handle_message service_down (u "₹, @ 3%") = Raise ValueError.
Proof. vm_compute. repeat split. Qed.

(** C9 fails on the code for the same reason: the search stops at the first
    match of the pattern, and when that one has an amount of commas only,
    a well-formed occurrence after it is never reached. *)
Lemma later_occurrence_not_reached :
  Bot.parse_input (u "₹5 @ 3%") = Ok (Some 5%Z, Some (float_of_int 3))
  /\ Bot.parse_input (u "₹, @ 1% or ₹5 @ 3%") = Raise ValueError.
Proof. vm_compute. repeat split. Qed.

(** ** What the search does find *)

Lemma search_from_first (r : regex) (n : nat) (s : str) (st : mstate) :
  first_match r (MState n s []) st -> search_from r n s = Some st.
Proof.
  unfold first_match. destruct s; simpl;
    destruct (ms r _); simpl; congruence.
Qed.

Lemma pattern_needs_rupee (c : N) (n : nat) (tl : str) :
  c <> Bot.RUPEE -> ms Bot.pattern (MState n (c :: tl) []) = [].
Proof.
  intros Hc. unfold Bot.pattern.
  match goal with
  | |- ms (Lit ?a >> ?r) ?st = [] =>
    change (flat_map (ms r) (eat (N.eqb a) st) = [])
  end.
  assert (E : eat (N.eqb Bot.RUPEE) (MState n (c :: tl) []) = []).
  { unfold eat. cbn [rest].
    destruct (N.eqb_spec Bot.RUPEE c) as [E | _]; [congruence | ].
    reflexivity. }
  now rewrite E.
Qed.

Lemma search_skips (pre : str) :
  forall (n : nat) (s : str),
    ~ In Bot.RUPEE pre ->
    search_from Bot.pattern n (pre ++ s)
    = search_from Bot.pattern (n + length pre) s.
Proof.
  induction pre as [ | c pre IH]; intros n s H.
  - simpl. now rewrite Nat.add_0_r.
  - cbn [app search_from]. rewrite pattern_needs_rupee.
    + rewrite IH; [f_equal; simpl; lia | ].
      intros Hin. apply H. now right.
    + intros ->. apply H. now left.
Qed.

(** The pattern is searched for, not matched against the whole message:
    when a well-formed ₹<amount> @ <percent>%, its amount within the bound
    of [int], follows a text without rupee sign, [parse_input] returns its
    amount and percent, whatever comes before it and after it. *)
Theorem parse_input_searches :
  forall (pre ws1 amt ws2 ws3 ip : str) (fp : option str) (post : str),
    ~ In Bot.RUPEE pre ->
    forallb isspace ws1 = true -> forallb isspace ws2 = true ->
    forallb isspace ws3 = true ->
    valid_amount amt = true -> within_int_limit amt = true ->
    valid_decimal ip fp = true ->
    Bot.parse_input
      (pre ++ command ws1 amt ws2 ws3 (decimal_text ip fp) post)
    = Ok (Some (Z.of_N (number_of (filter isdigit amt))),
          Some (decimal_value ip fp)).
Proof.
  intros pre ws1 amt ws2 ws3 ip fp post Hpre H1 H2 H3 Ha Hlen Hd.
  destruct (pattern_first_match ws1 amt ws2 ws3 ip fp post
              (0 + length pre) H1 H2 H3 Ha Hd) as [k Hm].
  unfold Bot.parse_input, re_search.
  rewrite (search_skips pre 0 _ Hpre), (search_from_first _ _ _ _ Hm).
  unfold Bot.group_text, group. cbn [groups assoc Nat.eqb bind].
  unfold valid_amount in Ha. apply andb_prop in Ha. destruct Ha as [Ha Hex].
  rewrite (replace_commas amt Ha).
  destruct (filter_digits amt Hex) as [Hne Hall].
  rewrite (py_int_digits _ Hne Hall Hlen). cbn [bind].
  now rewrite (py_float_decimal ip fp Hd).
Qed.

Lemma parse_input_searches_witness :
  Bot.parse_input (u "invest ₹ 1,500@2% today")
  = Ok (Some 1500%Z, Some (float_of_int 2)).
Proof.
  exact (parse_input_searches (u "invest ") (u " ") (u "1,500") [] []
                              (u "2") None (u " today")
                              ltac:(vm_compute; intuition discriminate)
                              eq_refl eq_refl eq_refl eq_refl eq_refl
                              eq_refl).
Defined.

(** ** What [parse_input] returns, when it returns *)

Lemma binary_round_aux_not_negative (m e : Z) (l : location) :
  flt (binary_round_aux prec emax false m e l) (S754_zero false) = false.
Proof.
  unfold binary_round_aux.
  destruct (shr_fexp prec emax m e l) as [mrs' e'].
  destruct (shr_fexp prec emax _ e' loc_Exact) as [mrs'' e''].
  destruct (shr_m mrs''); [reflexivity | | reflexivity].
  destruct (Z.leb e'' (emax - prec)); reflexivity.
Qed.

Lemma float_of_decimal_not_negative (m : N) (k : nat) :
  flt (float_of_decimal m k) (S754_zero false) = false.
Proof.
  unfold float_of_decimal. destruct m as [ | p]; [reflexivity | ].
  unfold SFdiv.
  destruct (SFdiv_core_binary prec emax (Z.pos p) 0 _ 0) as [[mz ez] lz].
  apply binary_round_aux_not_negative.
Qed.

Lemma py_int_not_negative (s : str) (n : Z) :
  py_int s = Ok n -> (0 <= n)%Z.
Proof.
  unfold py_int. destruct s; [discriminate | ].
  destruct (_ <=? _)%nat; [ | discriminate].
  destruct (digits_value 0 _); [ | discriminate].
  intros [= <-]. apply N2Z.is_nonneg.
Qed.

Lemma py_float_not_negative (s : str) (x : float) :
  py_float s = Ok x -> flt x (S754_zero false) = false.
Proof.
  unfold py_float. destruct (split DOT s) as [ | ip [ | fp [ | ? ?]]];
    try discriminate.
  - destruct ip; [discriminate | ].
    destruct (digits_value 0 _); [ | discriminate].
    intros [= <-]. apply float_of_decimal_not_negative.
  - destruct (ip ++ fp) eqn:E; [discriminate | ]. rewrite <- E.
    destruct (digits_value 0 _); [ | discriminate].
    intros [= <-]. apply float_of_decimal_not_negative.
Qed.

(** Whenever [parse_input] returns, it returns [(None, None)] or an amount
    and a percent together, neither of them negative. *)
Theorem parse_input_returns :
  forall (text : str) (r : option Z * option float),
    Bot.parse_input text = Ok r ->
    r = (None, None)
    \/ exists (amount : Z) (percent : float),
         r = (Some amount, Some percent)
         /\ (0 <= amount)%Z
         /\ flt percent (S754_zero false) = false.
Proof.
  intros text r. unfold Bot.parse_input.
  destruct (re_search Bot.pattern text) as [m | ];
    [ | intros [= <-]; now left].
  destruct (Bot.group_text 1 m) as [g1 | ]; [ | discriminate]. cbn [bind].
  destruct (py_int (replace Bot.COMMA [] g1)) as [amount | ] eqn:Ea;
    [ | discriminate]. cbn [bind].
  destruct (Bot.group_text 2 m) as [g2 | ]; [ | discriminate]. cbn [bind].
  destruct (py_float g2) as [percent | ] eqn:Ep; [ | discriminate].
  cbn [bind]. intros [= <-]. right. exists amount, percent.
  split; [reflexivity | ]. split.
  - exact (py_int_not_negative _ _ Ea).
  - exact (py_float_not_negative _ _ Ep).
Qed.

Lemma parse_input_returns_witness :
  (Some 20000%Z, Some (S754_finite false 7881299347898368 (-51)))
  = (@None Z, @None float)
  \/ exists (amount : Z) (percent : float),
       (Some 20000%Z, Some (S754_finite false 7881299347898368 (-51)))
       = (Some amount, Some percent)
       /\ (0 <= amount)%Z
       /\ flt percent (S754_zero false) = false.
Proof.
  exact (parse_input_returns (u "₹20,000 @ 3.5%") _ eq_refl).
Defined.

(** ** Every match of the pattern, whatever the text *)

Lemma in_eat (p : N -> bool) (st st' : mstate) :
  In st' (eat p st) ->
  exists c, p c = true /\ rest st = c :: rest st'
            /\ pos st' = S (pos st) /\ groups st' = groups st.
Proof.
  unfold eat. destruct (rest st) as [ | c s] eqn:E; [intros [] | ].
  destruct (p c) eqn:Hc; [ | intros []].
  intros [<- | []]. exists c. simpl. auto.
Qed.

Lemma in_star_cls (p : N -> bool) (fuel : nat) :
  forall st st' : mstate,
    In st' (star (eat p) fuel st) ->
    exists w, forallb p w = true /\ rest st = w ++ rest st'
              /\ pos st' = pos st + length w /\ groups st' = groups st.
Proof.
  induction fuel as [ | fuel IH]; intros st st' Hin.
  - destruct Hin as [<- | []]. exists []. simpl. auto.
  - cbn [star] in Hin. apply in_app_or in Hin.
    destruct Hin as [Hin | [<- | []]]; [ | exists []; simpl; auto].
    apply in_flat_map in Hin. destruct Hin as [x [Hx Hin]].
    destruct (length (rest x) <? length (rest st)); [ | contradiction].
    apply in_eat in Hx. destruct Hx as [c [Hc [Hr [Hp Hg]]]].
    destruct (IH x st' Hin) as [w [Hw [Hr' [Hp' Hg']]]].
    exists (c :: w). simpl. rewrite Hc, Hw, Hr, Hr', Hp', Hp, Hg', Hg.
    repeat split. lia.
Qed.

Lemma in_ms_star_cls (p : N -> bool) (st st' : mstate) :
  In st' (ms (Star (Cls p)) st) ->
  exists w, forallb p w = true /\ rest st = w ++ rest st'
            /\ pos st' = pos st + length w /\ groups st' = groups st.
Proof. apply in_star_cls. Qed.

Lemma in_ms_plus_cls (p : N -> bool) (st st' : mstate) :
  In st' (ms (Plus (Cls p)) st) ->
  exists w, w <> [] /\ forallb p w = true /\ rest st = w ++ rest st'
            /\ pos st' = pos st + length w /\ groups st' = groups st.
Proof.
  intros Hin.
  change (In st' (flat_map (fun x => star (eat p) (length (rest x)) x)
                           (eat p st))) in Hin.
  apply in_flat_map in Hin. destruct Hin as [x [Hx Hin]].
  apply in_eat in Hx. destruct Hx as [c [Hc [Hr [Hp Hg]]]].
  apply in_star_cls in Hin. destruct Hin as [w [Hw [Hr' [Hp' Hg']]]].
  exists (c :: w). simpl. rewrite Hc, Hw, Hr, Hr', Hp', Hp, Hg', Hg.
  repeat split; [discriminate | lia].
Qed.

Lemma in_ms_lit (c : N) (st st' : mstate) :
  In st' (ms (Lit c) st) ->
  rest st = c :: rest st' /\ pos st' = S (pos st) /\ groups st' = groups st.
Proof.
  intros Hin. apply in_eat in Hin. destruct Hin as [x [Hx H]].
  apply N.eqb_eq in Hx. now subst x.
Qed.

Lemma in_ms_cat (r1 r2 : regex) (st st' : mstate) :
  In st' (ms (r1 >> r2) st) ->
  exists x, In x (ms r1 st) /\ In st' (ms r2 x).
Proof. cbn [ms]. apply in_flat_map. Qed.

Lemma firstn_consumed (n : nat) (w tl : str) :
  firstn (n + length w - n) (w ++ tl) = w.
Proof.
  replace (n + length w - n) with (length w) by lia.
  rewrite firstn_app, firstn_all, Nat.sub_diag. simpl. apply app_nil_r.
Qed.

(** The percent of a match: digits, and a fraction when there is one. *)
Lemma in_ms_decimal (st st' : mstate) :
  In st' (ms (Plus (Cls isdigit) >> Opt (Lit DOT >> Plus (Cls isdigit))) st) ->
  exists ip fp,
    valid_decimal ip fp = true
    /\ rest st = decimal_text ip fp ++ rest st'
    /\ pos st' = pos st + length (decimal_text ip fp)
    /\ groups st' = groups st.
Proof.
  intros Hin. apply in_ms_cat in Hin. destruct Hin as [x [Hx Hin]].
  apply in_ms_plus_cls in Hx.
  destruct Hx as [ip [Hne [Hip [Hr [Hp Hg]]]]].
  assert (Vip : all_digits ip = true) by (destruct ip; [congruence | exact Hip]).
  cbn [ms] in Hin. apply in_app_or in Hin. destruct Hin as [Hin | [<- | []]].
  - apply in_flat_map in Hin. destruct Hin as [y [Hy Hin]].
    apply in_ms_lit in Hy. destruct Hy as [Hr1 [Hp1 Hg1]].
    apply in_ms_plus_cls in Hin.
    destruct Hin as [fp [Hfne [Hfp [Hr2 [Hp2 Hg2]]]]].
    exists ip, (Some fp). unfold valid_decimal, decimal_text.
    rewrite Vip, Hr, Hr1, Hr2, Hp2, Hp1, Hp, Hg2, Hg1, Hg, <- app_assoc.
    cbn [app andb]. repeat split.
    + destruct fp; [congruence | exact Hfp].
    + rewrite length_app. simpl. lia.
  - exists ip, None. unfold valid_decimal, decimal_text.
    rewrite Vip, app_nil_r. auto.
Qed.

Lemma in_ms_pattern (st st' : mstate) :
  In st' (ms Bot.pattern st) ->
  exists amt ip fp,
    amt <> [] /\ forallb Bot.digit_or_comma amt = true
    /\ valid_decimal ip fp = true
    /\ groups st' = (2, decimal_text ip fp) :: (1, amt) :: groups st.
Proof.
  unfold Bot.pattern. intros Hin.
  apply in_ms_cat in Hin. destruct Hin as [s1 [H1 Hin]].
  apply in_ms_lit in H1. destruct H1 as [_ [_ G1]].
  apply in_ms_cat in Hin. destruct Hin as [s2 [H2 Hin]].
  apply in_ms_star_cls in H2. destruct H2 as [_ [_ [_ [_ G2]]]].
  apply in_ms_cat in Hin. destruct Hin as [s3 [H3 Hin]].
  cbn [ms] in H3. apply in_map_iff in H3. destruct H3 as [x3 [E3 H3]].
  apply in_ms_plus_cls in H3.
  destruct H3 as [amt [Hne [Hamt [R3 [P3 G3]]]]].
  apply in_ms_cat in Hin. destruct Hin as [s4 [H4 Hin]].
  apply in_ms_star_cls in H4. destruct H4 as [_ [_ [_ [_ G4]]]].
  apply in_ms_cat in Hin. destruct Hin as [s5 [H5 Hin]].
  apply in_ms_lit in H5. destruct H5 as [_ [_ G5]].
  apply in_ms_cat in Hin. destruct Hin as [s6 [H6 Hin]].
  apply in_ms_star_cls in H6. destruct H6 as [_ [_ [_ [_ G6]]]].
  apply in_ms_cat in Hin. destruct Hin as [s7 [H7 Hin]].
  cbn [ms] in H7. apply in_map_iff in H7. destruct H7 as [x7 [E7 H7]].
  apply in_ms_decimal in H7. destruct H7 as [ip [fp [Hd [R7 [P7 G7]]]]].
  apply in_ms_lit in Hin. destruct Hin as [_ [_ G8]].
  exists amt, ip, fp. repeat split; try assumption.
  subst s3 s7. unfold close_group in *. cbn [groups] in *.
  rewrite G8, R7, P7, firstn_consumed, G7, G6, G5, G4.
  rewrite R3, P3, firstn_consumed, G3, G2, G1. reflexivity.
Qed.

Lemma search_from_some (r : regex) (s : str) :
  forall (n : nat) (m : mstate),
    search_from r n s = Some m ->
    exists k, In m (ms r (MState (n + k) (skipn k s) [])).
Proof.
  induction s as [ | c s IH]; intros n m H; cbn [search_from] in H.
  - exists 0. rewrite Nat.add_0_r. simpl.
    destruct (ms r (MState n [] [])); [discriminate | ].
    injection H as ->. now left.
  - destruct (ms r (MState n (c :: s) [])) as [ | x l] eqn:E.
    + destruct (IH (S n) m H) as [k Hk]. exists (S k).
      replace (n + S k) with (S n + k) by lia. exact Hk.
    + injection H as ->. exists 0. rewrite Nat.add_0_r. simpl.
      rewrite E. now left.
Qed.

Lemma filter_none (p : N -> bool) (l : str) :
  existsb p l = false -> filter p l = [].
Proof.
  induction l as [ | c l IH]; [reflexivity | ]. simpl.
  destruct (p c); [discriminate | exact IH].
Qed.

(** A match of the pattern has a non-empty run of digits and commas as its
    group 1 and a decimal number as its group 2, and [parse_input] converts
    them, or raises when the run has no digit or more digits than [int]
    converts. *)
Lemma parse_input_of_match (text : str) (m : mstate) :
  re_search Bot.pattern text = Some m ->
  exists amt ip fp,
    group 1 m = Some amt /\ group 2 m = Some (decimal_text ip fp)
    /\ amt <> [] /\ forallb Bot.digit_or_comma amt = true
    /\ valid_decimal ip fp = true
    /\ Bot.parse_input text
       = if existsb isdigit amt && within_int_limit amt
         then Ok (Some (Z.of_N (number_of (filter isdigit amt))),
                  Some (decimal_value ip fp))
         else Raise ValueError.
Proof.
  intros E. unfold Bot.parse_input. rewrite E.
  unfold re_search in E. apply search_from_some in E. destruct E as [k Hin].
  apply in_ms_pattern in Hin.
  destruct Hin as [amt [ip [fp [Hne [Hamt [Hd G]]]]]]. cbn [groups] in G.
  exists amt, ip, fp. unfold Bot.group_text, group. rewrite G.
  cbn [assoc Nat.eqb bind]. repeat split; try assumption.
  rewrite (replace_commas amt Hamt).
  destruct (existsb isdigit amt) eqn:Hex; cbn [andb].
  - destruct (filter_digits amt Hex) as [Hfne Hall].
    destruct (within_int_limit amt) eqn:Hlen.
    + rewrite (py_int_digits _ Hfne Hall Hlen). cbn [bind].
      now rewrite (py_float_decimal ip fp Hd).
    + now rewrite (py_int_too_long _ Hlen).
  - now rewrite (filter_none isdigit amt Hex).
Qed.

(** Every outcome of [parse_input]: [(None, None)] when the pattern has no
    match; otherwise the amount and the percent of the first match, unless
    its amount has no digit, or more than 4300 of them: then, and only
    then, [int] raises a [ValueError].  No other exception leaves
    [parse_input]. *)
Theorem parse_input_total :
  forall text : str,
    match re_search Bot.pattern text with
    | None => Bot.parse_input text = Ok (None, None)
    | Some m =>
      exists amt ip fp,
        group 1 m = Some amt /\ group 2 m = Some (decimal_text ip fp)
        /\ amt <> [] /\ forallb Bot.digit_or_comma amt = true
        /\ valid_decimal ip fp = true
        /\ Bot.parse_input text
           = if existsb isdigit amt && within_int_limit amt
             then Ok (Some (Z.of_N (number_of (filter isdigit amt))),
                      Some (decimal_value ip fp))
             else Raise ValueError
    end.
Proof.
  intros text.
  destruct (re_search Bot.pattern text) as [m | ] eqn:E.
  - exact (parse_input_of_match text m E).
  - unfold Bot.parse_input. now rewrite E.
Qed.

(** ** What [handle_message] sends when the language model fails *)

Lemma splitlines_chars_upto (n : nat) :
  forall s, length s <= n ->
  forall l c, In l (splitlines s) -> In c l -> In c s.
Proof.
  induction n as [ | n IH]; intros s Hn l c Hl Hc.
  - destruct s; [contradiction | simpl in Hn; lia].
  - destruct s as [ | x s]; [contradiction | ]. simpl in Hn.
    cbn [splitlines] in Hl. destruct (is_linebreak x).
    + destruct s as [ | d s'].
      * destruct Hl as [<- | []]. contradiction.
      * destruct ((x =? 13)%N && (d =? 10)%N);
          (destruct Hl as [<- | Hl]; [contradiction | ]).
        -- right. right. apply (IH s' ltac:(simpl in Hn; lia) l c Hl Hc).
        -- right. apply (IH (d :: s') ltac:(lia) l c Hl Hc).
    + destruct (splitlines s) as [ | l0 ls] eqn:E.
      * destruct Hl as [<- | []]. destruct Hc as [<- | []]. now left.
      * destruct Hl as [<- | Hl].
        -- destruct Hc as [<- | Hc]; [now left | right].
           apply (IH s ltac:(lia) l0 c); [rewrite E; now left | exact Hc].
        -- right. apply (IH s ltac:(lia) l c); [rewrite E; now right | exact Hc].
Qed.

Lemma splitlines_chars (s l : str) (c : N) :
  In l (splitlines s) -> In c l -> In c s.
Proof. apply (splitlines_chars_upto (length s) s (le_n _)). Qed.

Lemma lstrip_blank (s : str) : forallb isspace s = true -> lstrip s = [].
Proof.
  induction s as [ | c s IH]; [reflexivity | ]. simpl.
  intros H. apply andb_prop in H. destruct H as [Hc H]. now rewrite Hc, IH.
Qed.

Lemma strip_blank (s : str) : forallb isspace s = true -> strip s = [].
Proof. intros H. unfold strip. now rewrite (lstrip_blank s H). Qed.

(** An answer of blanks and line ends has no line to pick. *)
Lemma pick_lines_blank (picks : str) :
  forallb isspace picks = true -> Bot.pick_lines picks = [].
Proof.
  intros H. unfold Bot.pick_lines.
  assert (A : forall l, In l (splitlines picks) -> strip l = []).
  { intros l Hl. apply strip_blank. apply forallb_forall. intros c Hc.
    exact (forallb_In _ _ _ H (splitlines_chars picks l c Hl Hc)). }
  induction (splitlines picks) as [ | l ls IH]; [reflexivity | ].
  cbn [map filter]. rewrite (A l (or_introl eq_refl)).
  cbn. apply IH. intros l' Hl'. apply A. now right.
Qed.

(** Whatever the language model does, a message that is no purchase and
    that parses to an amount gets two replies: the acknowledgement, and
    then either the failure reply or the final message, which has the head
    with the amount and the percent, the numbered lines of the first
    answer, the sanity check or the notice that it was skipped, and the top
    pick. *)
Theorem parsed_message_is_answered :
  forall (fetch : str -> result str) (text : str) (amount : Z)
         (percent : option float),
    re_match Bot.buy_line (strip text) = None ->
    Bot.parse_input (strip text) = Ok (Some amount, percent) ->
    exists answer,
      Bot.handle_message fetch text = Ok [ack_text amount percent; answer]
      /\ (answer = Bot.failure_reply
          \/ exists picks top,
               fetch (Bot.prompt amount percent) = Ok picks
               /\ Bot.top_pick (Bot.pick_lines picks) = Ok top
               /\ answer
                  = Bot.picks_header amount percent
                    ++ Bot.numbered (Bot.pick_lines picks) ++ NL ++ NL
                    ++ Bot.sanity_check fetch (Bot.pick_lines picks) percent
                    ++ u "⭐️ Top suggestion: " ++ top).
Proof.
  intros fetch text amount percent Hbuy Hparse.
  unfold Bot.handle_message. rewrite Hbuy, Hparse. cbn [bind].
  unfold Bot.advise.
  destruct (fetch (Bot.prompt amount percent)) as [picks | e] eqn:Hp;
    cbn [bind]; [ | eexists; split; [reflexivity | now left]].
  destruct (Bot.top_pick (Bot.pick_lines picks)) as [top | e] eqn:Htop;
    cbn [bind]; [ | eexists; split; [reflexivity | now left]].
  eexists. split; [reflexivity | right]. exists picks, top.
  split; [reflexivity | split; [exact Htop | ]].
  now rewrite <- !app_assoc.
Qed.

Lemma parsed_message_is_answered_witness :
  exists answer,
    Bot.handle_message first_call_only (u "₹20,000 @ 3.5%")
    = Ok [ack_text 20000 (Some three_and_a_half); answer]
    /\ (answer = Bot.failure_reply
        \/ exists picks top,
             first_call_only (Bot.prompt 20000 (Some three_and_a_half))
             = Ok picks
             /\ Bot.top_pick (Bot.pick_lines picks) = Ok top
             /\ answer
                = Bot.picks_header 20000 (Some three_and_a_half)
                  ++ Bot.numbered (Bot.pick_lines picks) ++ NL ++ NL
                  ++ Bot.sanity_check first_call_only (Bot.pick_lines picks)
                       (Some three_and_a_half)
                  ++ u "⭐️ Top suggestion: " ++ top).
Proof.
  exact (parsed_message_is_answered first_call_only (u "₹20,000 @ 3.5%")
           20000 (Some three_and_a_half) eq_refl eq_refl).
Defined.

(** When the first call to the language model fails, or its answer has
    nothing but blanks, the message is acknowledged and answered with the
    failure reply. *)
Theorem first_agent_failure :
  forall (fetch : str -> result str) (text : str) (amount : Z)
         (percent : option float),
    re_match Bot.buy_line (strip text) = None ->
    Bot.parse_input (strip text) = Ok (Some amount, percent) ->
    (exists e, fetch (Bot.prompt amount percent) = Raise e)
    \/ (exists picks, fetch (Bot.prompt amount percent) = Ok picks
                      /\ forallb isspace picks = true) ->
    Bot.handle_message fetch text
    = Ok [ack_text amount percent; Bot.failure_reply].
Proof.
  intros fetch text amount percent Hbuy Hparse Hfetch.
  unfold Bot.handle_message. rewrite Hbuy, Hparse. cbn [bind].
  unfold Bot.advise.
  destruct Hfetch as [[e He] | [picks [Hp Hblank]]].
  - now rewrite He.
  - rewrite Hp. cbn [bind]. now rewrite (pick_lines_blank picks Hblank).
Qed.

Lemma first_agent_failure_witness :
  Bot.handle_message service_down (u "₹20,000 @ 3.5%")
  = Ok [ack_text 20000 (Some three_and_a_half); Bot.failure_reply].
Proof.
  exact (first_agent_failure service_down (u "₹20,000 @ 3.5%") 20000
           (Some three_and_a_half)
           eq_refl eq_refl (or_introl (ex_intro _ ServiceError eq_refl))).
Defined.

(** When only the second call fails, the picks are delivered all the same:
    the final message has the numbered lines, the notice that the sanity
    check was skipped, and the top pick. *)
Theorem second_agent_failure :
  forall (fetch : str -> result str) (text : str) (amount : Z)
         (percent : option float) (picks top : str) (e : exn),
    re_match Bot.buy_line (strip text) = None ->
    Bot.parse_input (strip text) = Ok (Some amount, percent) ->
    fetch (Bot.prompt amount percent) = Ok picks ->
    Bot.top_pick (Bot.pick_lines picks) = Ok top ->
    fetch (validation_prompt (Bot.pick_lines picks) percent) = Raise e ->
    Bot.handle_message fetch text
    = Ok [ack_text amount percent;
          Bot.picks_header amount percent
          ++ Bot.numbered (Bot.pick_lines picks) ++ NL ++ NL
          ++ skipped_notice ++ u "⭐️ Top suggestion: " ++ top].
Proof.
  intros fetch text amount percent picks top e Hbuy Hparse Hp Htop He.
  unfold Bot.handle_message. rewrite Hbuy, Hparse. cbn [bind].
  unfold Bot.advise. rewrite Hp. cbn [bind]. rewrite Htop. cbn [bind].
  unfold Bot.sanity_check. unfold validation_prompt in He. rewrite He.
  unfold skipped_notice. now rewrite <- !app_assoc.
Qed.

Lemma second_agent_failure_witness :
  Bot.handle_message first_call_only (u "₹20,000 @ 3.5%")
  = Ok [ack_text 20000 (Some three_and_a_half);
        Bot.picks_header 20000 (Some three_and_a_half)
        ++ Bot.numbered (Bot.pick_lines (join NL dash_answer)) ++ NL ++ NL
        ++ skipped_notice ++ u "⭐️ Top suggestion: " ++ u "TCS"].
Proof.
  exact (second_agent_failure first_call_only (u "₹20,000 @ 3.5%") 20000
           (Some three_and_a_half) (join NL dash_answer) (u "TCS")
           ServiceError eq_refl eq_refl eq_refl eq_refl eq_refl).
Defined.

Example final_message :
  Bot.handle_message first_call_only (u "₹20,000 @ 3.5%")
  = Ok [ u "✅ Received: ₹20000, target: 3.5%" ++ NL
         ++ u "Fetching top 5 picks...";
         u "📈 5 picks for ₹20000 @ 3.5%:" ++ NL
         ++ u "1. TCS – strong momentum" ++ NL ++ u "2. INFY – steady"
         ++ NL ++ NL ++ u "🔍 Sanity check: skipped (service limit)"
         ++ NL ++ NL ++ u "⭐️ Top suggestion: TCS" ].
Proof. vm_compute. reflexivity. Qed.
Example buy_examples :
  Bot.buy_handler (quote 104) noon (u " i BUY aaa ") None
  = Ok (Some (Encodes [new_position noon (u "AAA") (float_of_int 104)]),
        [u "✅ Recorded AAA at ₹104.00. I'll watch this position!"])
  /\ Bot.buy_handler (quote 104) noon (u "I buy tcs.ns") None
     = Ok (None,
           [u "⚠️ Couldn't fetch price for TCS.NS. Check symbol and try again."])
  /\ Bot.buy_handler (quote 104) noon (u "I buy 2 shares") None = Ok (None, [])
  /\ Bot.buy_handler (quote 104) noon (u "I buy AAA") (Some Malformed)
     = Raise JSONDecodeError.
Proof. vm_compute. repeat split. Qed.

(** ** Capture groups do not change what matches *)

Lemma same_place_eat (p : N -> bool) (st1 st2 : mstate) :
  same_place st1 st2 -> Forall2 same_place (eat p st1) (eat p st2).
Proof.
  intros [Hp Hr]. unfold eat. rewrite Hr.
  destruct (rest st2) as [ | c s]; [constructor | ].
  destruct (p c); constructor; [ | constructor].
  split; simpl; congruence.
Qed.

Lemma Forall2_flat_map (A B : Type) (R : A -> A -> Prop) (S : B -> B -> Prop)
  (f g : A -> list B) (l1 l2 : list A) :
  (forall a b, R a b -> Forall2 S (f a) (g b)) ->
  Forall2 R l1 l2 -> Forall2 S (flat_map f l1) (flat_map g l2).
Proof.
  intros H F. induction F as [ | a b l1 l2 Hab F IH]; [constructor | ].
  simpl. apply Forall2_app; [now apply H | exact IH].
Qed.

Lemma same_place_star (f g : mstate -> list mstate) :
  (forall a b, same_place a b -> Forall2 same_place (f a) (g b)) ->
  forall (fuel : nat) (st1 st2 : mstate),
    same_place st1 st2 ->
    Forall2 same_place (star f fuel st1) (star g fuel st2).
Proof.
  intros H. induction fuel as [ | fuel IH]; intros st1 st2 E.
  - repeat constructor; apply E.
  - cbn [star]. apply Forall2_app; [ | repeat constructor; apply E].
    apply Forall2_flat_map with (R := same_place); [ | now apply H].
    intros a b Eab. destruct E as [_ Er], Eab as [Eabp Eabr].
    rewrite Er, Eabr.
    destruct (length (rest b) <? length (rest st2)); [ | constructor].
    apply IH. now split.
Qed.

Lemma same_place_ms (r : regex) :
  forall st1 st2 : mstate,
    same_place st1 st2 ->
    Forall2 same_place (ms r st1) (ms (ungroup r) st2).
Proof.
  induction r as [c | p | r1 IH1 r2 IH2 | r1 IH | r1 IH | r1 IH | i r1 IH
                  | | ]; intros st1 st2 E; cbn [ungroup ms].
  - now apply same_place_eat.
  - now apply same_place_eat.
  - apply Forall2_flat_map with (R := same_place); [exact IH2 | now apply IH1].
  - destruct E as [Ep Er]. rewrite Er.
    apply same_place_star; [exact IH | now split].
  - apply Forall2_flat_map with (R := same_place); [ | now apply IH].
    intros a b [Ep Er]. rewrite Er.
    apply same_place_star; [exact IH | now split].
  - apply Forall2_app; [now apply IH | repeat constructor; apply E].
  - specialize (IH st1 st2 E).
    induction IH as [ | a b l1 l2 Hab F IHF]; [constructor | ].
    simpl. constructor; [exact Hab | exact IHF].
  - pose proof E as [Ep Er]. rewrite Ep.
    destruct (pos st2 =? 0); constructor; [exact E | constructor].
  - pose proof E as [Ep Er]. rewrite Er.
    destruct (rest st2) as [ | c [ | d s]].
    + constructor; [exact E | constructor].
    + destruct (c =? 10)%N; constructor; [exact E | constructor].
    + constructor.
Qed.

Lemma re_match_ungroup (r : regex) (text : str) :
  re_match r text = None <-> re_match (ungroup r) text = None.
Proof.
  unfold re_match.
  pose proof (same_place_ms r (MState 0 text []) (MState 0 text [])
                            (conj eq_refl eq_refl)) as F.
  destruct F; simpl; split; congruence.
Qed.

(** [buy_handler] and [handle_message] share the text messages between
    them: on a message whose stripped text is a line "I buy <symbol>",
    [handle_message] sends nothing, and on every other message
    [buy_handler] sends nothing and leaves the positions file as it is. *)
Theorem buy_or_advice :
  forall (fetch : str -> result str) (last_close : str -> option float)
         (utcnow : datetime) (text : str) (f : Storage.file),
    match re_match Bot.buy_pattern (strip text) with
    | Some _ => Bot.handle_message fetch text = Ok []
    | None => Bot.buy_handler last_close utcnow text f = Ok (f, [])
    end.
Proof.
  intros fetch last_close utcnow text f.
  destruct (re_match Bot.buy_pattern (strip text)) eqn:E.
  - unfold Bot.handle_message.
    destruct (re_match Bot.buy_line (strip text)) eqn:E'; [reflexivity | ].
    apply (re_match_ungroup Bot.buy_pattern) in E'. congruence.
  - unfold Bot.buy_handler. now rewrite E.
Qed.

(** ** The purchases that [buy_handler] records *)

Lemma symbol_char_cases (c : N) :
  Bot.symbol_char c = true ->
  c = DOT \/ (0x41 <= c <= 0x5A)%N \/ (0x61 <= c <= 0x7A)%N
  \/ c = 0x130%N \/ c = 0x131%N \/ c = 0x17F%N \/ c = 0x212A%N.
Proof.
  unfold Bot.symbol_char, is_ascii_letter, ignorecase_pairs.
  cbn [existsb fst snd].
  rewrite !orb_true_iff, !andb_true_iff, !N.eqb_eq, !N.leb_le.
  intros [[H | [H | H]] | [[_ H] | [[_ H] | [[_ H] | [[_ H] | H]]]]];
    try discriminate; auto 10.
Qed.

Lemma upper_capital (c : N) :
  Bot.symbol_char c = true -> capital (Bot.upper_char c) = true.
Proof.
  intros H. apply symbol_char_cases in H.
  unfold capital, Bot.upper_char.
  destruct H as [-> | [H | [H | [-> | [-> | [-> | ->]]]]]];
    try reflexivity.
  - replace ((0x61 <=? c) && (c <=? 0x7A))%N with false
      by (symmetry; apply andb_false_iff; left; apply N.leb_gt; lia).
    replace (c =? 0x131)%N with false by (symmetry; apply N.eqb_neq; lia).
    replace (c =? 0x17F)%N with false by (symmetry; apply N.eqb_neq; lia).
    replace ((0x41 <=? c) && (c <=? 0x5A))%N with true
      by (symmetry; apply andb_true_iff; split; apply N.leb_le; lia).
    now rewrite orb_true_r.
  - replace ((0x61 <=? c) && (c <=? 0x7A))%N with true
      by (symmetry; apply andb_true_iff; split; apply N.leb_le; lia).
    replace ((0x41 <=? c - 32) && (c - 32 <=? 0x5A))%N with true
      by (symmetry; apply andb_true_iff; split; apply N.leb_le; lia).
    now rewrite orb_true_r.
Qed.

Lemma upper_capitals (g : str) :
  forallb Bot.symbol_char g = true -> forallb capital (Bot.upper g) = true.
Proof.
  induction g as [ | c g IH]; [reflexivity | ]. simpl.
  intros H. apply andb_prop in H. destruct H as [Hc H].
  now rewrite (upper_capital c Hc), IH.
Qed.

Lemma in_ms_cls (p : N -> bool) (st st' : mstate) :
  In st' (ms (Cls p) st) -> groups st' = groups st.
Proof. intros H. apply in_eat in H. now destruct H as [c [_ [_ [_ G]]]]. Qed.

Lemma in_ms_bol (st st' : mstate) : In st' (ms Bol st) -> st' = st.
Proof. cbn [ms]. destruct (pos st =? 0); [now intros [<- | []] | intros []]. Qed.

Lemma in_ms_eol (st st' : mstate) : In st' (ms Eol st) -> st' = st.
Proof.
  cbn [ms]. destruct (rest st) as [ | c [ | d s]].
  - now intros [<- | []].
  - destruct (c =? 10)%N; [now intros [<- | []] | intros []].
  - intros [].
Qed.

Lemma in_ms_buy_pattern (st st' : mstate) :
  In st' (ms Bot.buy_pattern st) ->
  exists g, g <> [] /\ forallb Bot.symbol_char g = true
            /\ groups st' = (1, g) :: groups st.
Proof.
  unfold Bot.buy_pattern. intros Hin.
  apply in_ms_cat in Hin. destruct Hin as [s0 [H0 Hin]].
  apply in_ms_bol in H0. subst s0.
  apply in_ms_cat in Hin. destruct Hin as [s1 [H1 Hin]].
  apply in_ms_cls in H1.
  apply in_ms_cat in Hin. destruct Hin as [s2 [H2 Hin]].
  apply in_ms_lit in H2. destruct H2 as [_ [_ G2]].
  apply in_ms_cat in Hin. destruct Hin as [s3 [H3 Hin]].
  apply in_ms_cls in H3.
  apply in_ms_cat in Hin. destruct Hin as [s4 [H4 Hin]].
  apply in_ms_cls in H4.
  apply in_ms_cat in Hin. destruct Hin as [s5 [H5 Hin]].
  apply in_ms_cls in H5.
  apply in_ms_cat in Hin. destruct Hin as [s6 [H6 Hin]].
  apply in_ms_plus_cls in H6. destruct H6 as [_ [_ [_ [_ [_ G6]]]]].
  apply in_ms_cat in Hin. destruct Hin as [s7 [H7 Hin]].
  cbn [ms] in H7. apply in_map_iff in H7. destruct H7 as [x [E7 H7]].
  apply in_ms_plus_cls in H7. destruct H7 as [g [Hne [Hg [R7 [P7 G7]]]]].
  apply in_ms_eol in Hin. subst st' s7.
  exists g. repeat split; try assumption.
  unfold close_group. cbn [groups].
  rewrite R7, P7, firstn_consumed, G7, G6, H5, H4, H3, G2, H1. reflexivity.
Qed.

Lemma re_match_In (r : regex) (text : str) (m : mstate) :
  re_match r text = Some m -> In m (ms r (MState 0 text [])).
Proof.
  unfold re_match. destruct (ms r _); simpl; [discriminate | ].
  intros [= ->]. now left.
Qed.

(** Every outcome of [buy_handler].  A message that is no line "I buy
    <symbol>" changes nothing and gets no reply.  Otherwise the symbol is
    put in capitals and the last close of its ticker is looked up, the same
    ticker that the monitor derives from the stored symbol: when the lookup
    fails the sender is told so and nothing is stored; when it succeeds the
    position is appended to the store and acknowledged with the price to
    two decimals; when the store cannot be read, the error of
    [load_positions] leaves the handler and nothing is sent. *)
Theorem buy_handler_outcomes :
  forall (last_close : str -> option float) (utcnow : datetime)
         (text : str) (f : Storage.file),
    match re_match Bot.buy_pattern (strip text) with
    | None => Bot.buy_handler last_close utcnow text f = Ok (f, [])
    | Some m =>
      exists g,
        group 1 m = Some g /\ g <> []
        /\ forallb capital (Bot.upper g) = true
        /\ match last_close (Monitor.ticker_of (Bot.upper g)) with
           | None =>
             Bot.buy_handler last_close utcnow text f
             = Ok (f, [fetch_failed_reply (Bot.upper g)])
           | Some price =>
             match Storage.load_positions f with
             | Ok ps =>
               Bot.buy_handler last_close utcnow text f
               = Ok (Some (Encodes
                             (ps ++ [new_position utcnow (Bot.upper g) price])),
                     [recorded_reply (Bot.upper g) price])
             | Raise e =>
               Bot.buy_handler last_close utcnow text f = Raise e
             end
           end
    end.
Proof.
  intros last_close utcnow text f. unfold Bot.buy_handler.
  destruct (re_match Bot.buy_pattern (strip text)) as [m | ] eqn:E;
    [ | reflexivity].
  apply re_match_In, in_ms_buy_pattern in E.
  destruct E as [g [Hne [Hg G]]]. cbn [groups] in G.
  exists g. unfold Bot.group_text, group. rewrite G.
  cbn [assoc Nat.eqb bind]. repeat split; try assumption.
  { now apply upper_capitals. }
  change (if endswith (Bot.upper g) (u ".NS") then Bot.upper g
          else Bot.upper g ++ u ".NS")
    with (Monitor.ticker_of (Bot.upper g)).
  unfold fetch_failed_reply, recorded_reply, new_position.
  destruct (last_close (Monitor.ticker_of (Bot.upper g))) as [price | ];
    [ | reflexivity].
  unfold Bot.add_position, Storage.add_position, Storage.save_positions.
  destruct (Storage.load_positions f) as [ps | e]; cbn [bind]; reflexivity.
Qed.

(** ** Tickers *)

Lemma skipn_length_app (A : Type) (l l' : list A) :
  skipn (length (l ++ l') - length l') (l ++ l') = l'.
Proof.
  rewrite length_app, Nat.add_sub.
  induction l as [ | a l IH]; [reflexivity | exact IH].
Qed.

Lemma str_eqb_refl (s : str) : str_eqb s s = true.
Proof. unfold str_eqb. now destruct (list_eq_dec N.eq_dec s s). Qed.

Lemma endswith_app (s suffix : str) : endswith (s ++ suffix) suffix = true.
Proof.
  unfold endswith. rewrite skipn_length_app, str_eqb_refl.
  apply Nat.leb_le. rewrite length_app. lia.
Qed.

(** The ticker that the monitor and [buy_handler] look up always ends in
    [.NS], and a symbol that has the suffix already is looked up as it is:
    the suffix is never doubled. *)
Theorem ticker_of_suffix :
  forall symbol : str,
    endswith (Monitor.ticker_of symbol) (u ".NS") = true
    /\ Monitor.ticker_of (Monitor.ticker_of symbol) = Monitor.ticker_of symbol
    /\ Monitor.ticker_of (symbol ++ u ".NS") = symbol ++ u ".NS".
Proof.
  intros symbol.
  assert (H : endswith (Monitor.ticker_of symbol) (u ".NS") = true).
  { unfold Monitor.ticker_of.
    destruct (endswith symbol (u ".NS")) eqn:E; [exact E | ].
    apply endswith_app. }
  split; [exact H | split].
  - unfold Monitor.ticker_of at 1. now rewrite H.
  - unfold Monitor.ticker_of. now rewrite endswith_app.
Qed.

(** ** What ends the monitoring loop *)

Lemma position_alert_raise (last_close : str -> option float) (p : Position)
  (e : exn) :
  Monitor.position_alert last_close p = Raise e ->
  e = ZeroDivisionError /\ is_zero (entry_price p) = true
  /\ exists current,
       last_close (Monitor.ticker_of (symbol p)) = Some current.
Proof.
  unfold Monitor.position_alert, Monitor.change_percent, fdiv.
  destruct (last_close (Monitor.ticker_of (symbol p))) as [current | ];
    [ | discriminate].
  destruct (entry_price p) as [s | s | | s m x]; cbn [bind is_zero];
    try (repeat match goal with
                | |- context [if ?b then _ else _] => destruct b
                end; discriminate).
  intros [= <-]. repeat split. now exists current.
Qed.

Lemma position_alert_zero (last_close : str -> option float) (p : Position)
  (current : float) :
  is_zero (entry_price p) = true ->
  last_close (Monitor.ticker_of (symbol p)) = Some current ->
  Monitor.position_alert last_close p = Raise ZeroDivisionError.
Proof.
  unfold Monitor.position_alert, Monitor.change_percent, fdiv.
  intros Hz ->. now destruct (entry_price p).
Qed.

Lemma collect_alerts_raise (last_close : str -> option float)
  (positions : list Position) :
  forall (alerts : list str) (e : exn),
    Monitor.collect_alerts last_close positions alerts = Raise e
    <-> e = ZeroDivisionError
        /\ exists p current,
             In p positions /\ is_zero (entry_price p) = true
             /\ last_close (Monitor.ticker_of (symbol p)) = Some current.
Proof.
  induction positions as [ | p ps IH]; intros alerts e.
  - cbn [Monitor.collect_alerts]. split; [discriminate | ].
    now intros [_ [p [current [[] _]]]].
  - cbn [Monitor.collect_alerts].
    destruct (Monitor.position_alert last_close p) as [a | e'] eqn:E;
      cbn [bind].
    + rewrite IH. split.
      * intros [-> [q [current [Hq H]]]]. split; [reflexivity | ].
        exists q, current. split; [now right | exact H].
      * intros [-> [q [current [[<- | Hq] [Hz Hc]]]]].
        -- rewrite (position_alert_zero last_close p current Hz Hc) in E.
           discriminate.
        -- split; [reflexivity | ]. now exists q, current.
    + apply position_alert_raise in E.
      destruct E as [-> [Hz [current Hc]]]. split.
      * intros [= <-]. split; [reflexivity | ].
        exists p, current. split; [now left | now split].
      * now intros [-> _].
Qed.

(** One position with entry price zero stops the whole loop: when the
    marker exists and the price of such a position is looked up with
    success, the division raises [ZeroDivisionError] outside the [try],
    whatever the other positions are and whatever alerts they are due. *)
Theorem zero_entry_price_raises :
  forall (last_close : str -> option float) (now : datetime)
         (fs : Monitor.files) (ps : list Position) (p : Position)
         (current : float),
    Monitor.monitor_flag_file fs = true ->
    Monitor.load_positions fs = Ok ps ->
    In p ps ->
    is_zero (entry_price p) = true ->
    last_close (Monitor.ticker_of (symbol p)) = Some current ->
    Monitor.monitor_loop last_close now fs = Raise ZeroDivisionError.
Proof.
  intros last_close now fs ps p current Hflag Hload Hin Hz Hc.
  unfold Monitor.monitor_loop. rewrite Hflag, Hload. cbn [bind].
  destruct ps as [ | q ps]; [destruct Hin | ].
  assert (R : Monitor.collect_alerts last_close (q :: ps) []
              = Raise ZeroDivisionError).
  { apply collect_alerts_raise. split; [reflexivity | ].
    now exists p, current. }
  now rewrite R.
Qed.

Lemma zero_entry_price_raises_witness :
  Monitor.monitor_loop (quote 104) noon
    (Monitor.fs (watching [AAA; free_share]))
  = Raise ZeroDivisionError.
Proof.
  apply (zero_entry_price_raises (quote 104) noon
           (Monitor.fs (watching [AAA; free_share])) [AAA; free_share]
           free_share (float_of_int 104) eq_refl eq_refl).
  - right. left. reflexivity.
  - reflexivity.
  - reflexivity.
Defined.

(** When no entry price is zero, a cycle has the alert lines of its
    positions in the order of the file; a position whose lookup fails is
    skipped and the others are not affected. *)
Theorem alerts_in_file_order :
  forall (last_close : str -> option float) (positions : list Position),
    (forall p, In p positions -> is_zero (entry_price p) = false) ->
    Monitor.collect_alerts last_close positions []
    = Ok (flat_map (alert_lines last_close) positions).
Proof.
  intros last_close positions H.
  rewrite (collect_alerts_all last_close positions []); [reflexivity | ].
  intros p Hp.
  destruct (Monitor.position_alert last_close p) as [a | e] eqn:E;
    [now exists a | ].
  apply position_alert_raise in E. destruct E as [_ [Hz _]].
  rewrite (H p Hp) in Hz. discriminate.
Qed.

Lemma alerts_in_file_order_witness :
  Monitor.collect_alerts (quote 104) [AAA; AAA] []
  = Ok (flat_map (alert_lines (quote 104)) [AAA; AAA]).
Proof.
  apply (alerts_in_file_order (quote 104) [AAA; AAA]).
  intros p [<- | [<- | []]]; reflexivity.
Defined.

(** ** A price that has not moved *)

Lemma fsub_diag (s : bool) (m : positive) (x : Z) :
  fsub (S754_finite s m x) (S754_finite s m x) = S754_zero false.
Proof.
  unfold fsub, SFsub. cbv zeta. rewrite Z.sub_diag. reflexivity.
Qed.

(** A position whose last close equals its entry price gets no alert,
    whatever the price is, as long as it is not zero. *)
Theorem unchanged_price_no_alert :
  forall (last_close : str -> option float) (p : Position),
    is_zero (entry_price p) = false ->
    last_close (Monitor.ticker_of (symbol p)) = Some (entry_price p) ->
    Monitor.position_alert last_close p = Ok None.
Proof.
  intros last_close p Hz Hc. unfold Monitor.position_alert. rewrite Hc.
  unfold Monitor.change_percent.
  destruct (entry_price p) as [s | s | | s m x].
  - discriminate.
  - destruct s; reflexivity.
  - reflexivity.
  - rewrite fsub_diag. unfold fdiv. cbn [bind].
    destruct s; reflexivity.
Qed.

Lemma unchanged_price_no_alert_witness :
  Monitor.position_alert (quote 100) AAA = Ok None.
Proof.
  exact (unchanged_price_no_alert (quote 100) AAA eq_refl eq_refl).
Defined.

(** ** Loop tasks that have ended *)

Lemma nth_error_set_nth_eq (A : Type) (a x : A) (l : list A) :
  forall i : nat,
    nth_error l i = Some x -> nth_error (Monitor.set_nth i a l) i = Some a.
Proof.
  induction l as [ | y l IH]; intros [ | i]; simpl; try discriminate.
  - reflexivity.
  - apply IH.
Qed.

Lemma nth_error_set_nth_neq (A : Type) (a : A) (l : list A) :
  forall i j : nat,
    i <> j -> nth_error (Monitor.set_nth i a l) j = nth_error l j.
Proof.
  induction l as [ | y l IH]; intros [ | i] [ | j] H; simpl;
    try reflexivity; try contradiction.
  apply IH. congruence.
Qed.

Lemma wake_keeps_ended (i j : nat) (last_close : str -> option float)
  (now : datetime) (pr : Monitor.process) (t : Monitor.task) :
  nth_error (Monitor.loops pr) j = Some t -> ended t = true ->
  nth_error (Monitor.loops (Monitor.wake i last_close now pr)) j = Some t.
Proof.
  intros Hj Ht. unfold Monitor.wake.
  destruct (nth_error (Monitor.loops pr) i) as [[ | | e] | ] eqn:Hi;
    try exact Hj.
  assert (Hij : i <> j).
  { intros ->. rewrite Hi in Hj. injection Hj as <-. discriminate. }
  destruct (Monitor.monitor_loop last_close now (Monitor.fs pr))
    as [[msgs | ] | e]; cbn [Monitor.loops]; try exact Hj;
    now rewrite nth_error_set_nth_neq.
Qed.

Lemma handle_keeps_ended (ev : Monitor.event) (pr : Monitor.process)
  (j : nat) (t : Monitor.task) :
  nth_error (Monitor.loops pr) j = Some t -> ended t = true ->
  nth_error (Monitor.loops (Monitor.handle pr ev)) j = Some t.
Proof.
  intros Hj Ht. destruct ev as [chat | chat | i last_close now].
  - cbn [Monitor.handle Monitor.start_monitor Monitor.loops].
    rewrite nth_error_app1; [exact Hj | ].
    apply nth_error_Some. now rewrite Hj.
  - cbn [Monitor.handle]. unfold Monitor.stop_monitor.
    destruct (if Monitor.monitor_flag_file (Monitor.fs pr)
              then Monitor.remove_flag (Monitor.fs pr)
              else Ok (Monitor.fs pr)); cbn [bind Monitor.loops]; exact Hj.
  - now apply wake_keeps_ended.
Qed.

Lemma run_keeps_ended (evs : list Monitor.event) :
  forall (pr : Monitor.process) (j : nat) (t : Monitor.task),
    nth_error (Monitor.loops pr) j = Some t -> ended t = true ->
    nth_error (Monitor.loops (Monitor.run evs pr)) j = Some t.
Proof.
  induction evs as [ | ev evs IH]; intros pr j t Hj Ht; [exact Hj | ].
  cbn [Monitor.run fold_left]. apply IH; [ | exact Ht].
  now apply handle_keeps_ended.
Qed.

(** A loop that raises is lost for good.  When the loop task that is
    resumed raises, no message of that cycle is sent, and whatever
    happens afterwards, further start commands included, that task stays
    failed: it is never resumed. *)
Theorem failed_loop_is_lost :
  forall (pr : Monitor.process) (i : nat) (last_close : str -> option float)
         (now : datetime) (e : exn) (evs : list Monitor.event),
    nth_error (Monitor.loops pr) i = Some Monitor.Suspended ->
    Monitor.monitor_loop last_close now (Monitor.fs pr) = Raise e ->
    Monitor.sent (Monitor.wake i last_close now pr) = Monitor.sent pr
    /\ Monitor.fs (Monitor.wake i last_close now pr) = Monitor.fs pr
    /\ nth_error
         (Monitor.loops
            (Monitor.run (Monitor.Wake i last_close now :: evs) pr)) i
       = Some (Monitor.Failed e).
Proof.
  intros pr i last_close now e evs Hi He.
  cbn [Monitor.run fold_left Monitor.handle].
  assert (W : Monitor.wake i last_close now pr
              = {| Monitor.fs := Monitor.fs pr;
                   Monitor.loops :=
                     Monitor.set_nth i (Monitor.Failed e) (Monitor.loops pr);
                   Monitor.sent := Monitor.sent pr |}).
  { unfold Monitor.wake. now rewrite Hi, He. }
  rewrite W. cbn [Monitor.sent Monitor.fs]. repeat split.
  apply run_keeps_ended; [ | reflexivity].
  cbn [Monitor.loops]. now apply nth_error_set_nth_eq with Monitor.Suspended.
Qed.

Lemma failed_loop_is_lost_witness :
  Monitor.sent (Monitor.wake 0 (quote 104) noon (watching [AAA; free_share]))
  = []
  /\ Monitor.fs (Monitor.wake 0 (quote 104) noon (watching [AAA; free_share]))
     = Monitor.fs (watching [AAA; free_share])
  /\ nth_error
       (Monitor.loops
          (Monitor.run [Monitor.Wake 0 (quote 104) noon; Monitor.Start 7;
                        Monitor.Wake 0 (quote 104) noon]
                       (watching [AAA; free_share]))) 0
     = Some (Monitor.Failed ZeroDivisionError).
Proof.
  exact (failed_loop_is_lost (watching [AAA; free_share]) 0 (quote 104) noon
           ZeroDivisionError
           [Monitor.Start 7; Monitor.Wake 0 (quote 104) noon]
           eq_refl eq_refl).
Defined.

(** ** After a stop command *)

Lemma wake_stopped (i : nat) (last_close : str -> option float)
  (now : datetime) (pr : Monitor.process) :
  Monitor.monitor_flag_file (Monitor.fs pr) = false ->
  Monitor.fs (Monitor.wake i last_close now pr) = Monitor.fs pr
  /\ Monitor.sent (Monitor.wake i last_close now pr) = Monitor.sent pr
  /\ (nth_error (Monitor.loops pr) i = Some Monitor.Suspended ->
      nth_error (Monitor.loops (Monitor.wake i last_close now pr)) i
      = Some Monitor.Finished)
  /\ forall j, j <> i ->
       nth_error (Monitor.loops (Monitor.wake i last_close now pr)) j
       = nth_error (Monitor.loops pr) j.
Proof.
  intros Hflag. unfold Monitor.wake, Monitor.monitor_loop. rewrite Hflag.
  destruct (nth_error (Monitor.loops pr) i) as [[ | | e] | ] eqn:Hi;
    cbn [Monitor.fs Monitor.sent Monitor.loops]; repeat split;
    try discriminate; try reflexivity.
  - intros _. now apply nth_error_set_nth_eq with Monitor.Suspended.
  - intros j Hj. apply nth_error_set_nth_neq. congruence.
Qed.

Lemma run_wakes_stopped
  (wakes : list (nat * (str -> option float) * datetime)) :
  forall pr : Monitor.process,
    Monitor.monitor_flag_file (Monitor.fs pr) = false ->
    Monitor.fs (Monitor.run (map wake_event wakes) pr) = Monitor.fs pr
    /\ Monitor.sent (Monitor.run (map wake_event wakes) pr) = Monitor.sent pr
    /\ forall i last_close now,
         In (i, last_close, now) wakes ->
         nth_error (Monitor.loops pr) i = Some Monitor.Suspended ->
         nth_error (Monitor.loops (Monitor.run (map wake_event wakes) pr)) i
         = Some Monitor.Finished.
Proof.
  induction wakes as [ | [[i0 lc0] now0] wakes IH]; intros pr Hflag.
  - repeat split. intros i lc now [].
  - cbn [map Monitor.run fold_left wake_event Monitor.handle fst snd].
    destruct (wake_stopped i0 lc0 now0 pr Hflag) as [Hfs [Hsent [Hi0 Hj]]].
    destruct (IH (Monitor.wake i0 lc0 now0 pr)) as [Hfs' [Hsent' Hloops']];
      [now rewrite Hfs | ].
    unfold Monitor.run in *. rewrite Hfs', Hsent'. repeat split; try assumption.
    intros i lc now Hin Hi.
    destruct (Nat.eq_dec i i0) as [-> | Hne].
    + apply (run_keeps_ended (map wake_event wakes)); [ | reflexivity].
      now apply Hi0.
    + destruct Hin as [[= E _ _] | Hin]; [congruence | ].
      apply (Hloops' i lc now Hin). now rewrite Hj.
Qed.

Lemma stop_effect (chat : Z) (pr : Monitor.process) :
  exists pr' : Monitor.process,
    Monitor.stop_monitor chat pr = Ok pr'
    /\ Monitor.monitor_flag_file (Monitor.fs pr') = false
    /\ Monitor.loops pr' = Monitor.loops pr
    /\ Monitor.sent pr'
       = Monitor.sent pr ++ [(str_of_int chat, stopped_reply)].
Proof.
  unfold Monitor.stop_monitor, Monitor.remove_flag.
  destruct (Monitor.monitor_flag_file (Monitor.fs pr)) eqn:Hflag;
    cbn [bind]; eexists; (split; [reflexivity | ]);
    cbn [Monitor.fs Monitor.loops Monitor.sent Monitor.monitor_flag_file];
    repeat split; assumption.
Qed.

(** After a stop command, and until the next start, no alert is sent, and
    every loop task that is resumed returns: the only message is the reply
    to the command. *)
Theorem stopped_monitor_is_silent :
  forall (pr : Monitor.process) (chat : Z)
         (wakes : list (nat * (str -> option float) * datetime)),
    let pr' := Monitor.run (Monitor.Stop chat :: map wake_event wakes) pr in
    Monitor.sent pr' = Monitor.sent pr ++ [(str_of_int chat, stopped_reply)]
    /\ Monitor.monitor_flag_file (Monitor.fs pr') = false
    /\ forall i last_close now,
         In (i, last_close, now) wakes ->
         nth_error (Monitor.loops pr) i = Some Monitor.Suspended ->
         nth_error (Monitor.loops pr') i = Some Monitor.Finished.
Proof.
  intros pr chat wakes. cbv zeta.
  destruct (stop_effect chat pr)
    as [pr1 [E [Hflag [Hloops Hsent]]]].
  change (Monitor.run (Monitor.Stop chat :: map wake_event wakes) pr)
    with (Monitor.run (map wake_event wakes)
            (Monitor.handle pr (Monitor.Stop chat))).
  cbn [Monitor.handle]. rewrite E.
  destruct (run_wakes_stopped wakes pr1 Hflag) as [Hfs' [Hsent' Hloops']].
  rewrite Hfs', Hsent', Hflag, Hsent. repeat split.
  intros i lc now Hin Hi. apply (Hloops' i lc now Hin). now rewrite Hloops.
Qed.

(** ** Who gets the messages *)

Lemma lstrip_head (c : N) (s : str) :
  isspace c = false -> lstrip (c :: s) = c :: s.
Proof. intros H. simpl. now rewrite H. Qed.

Lemma strip_solid (s : str) :
  forallb (fun c => negb (isspace c)) s = true -> strip s = s.
Proof.
  intros H. unfold strip, rstrip.
  assert (L : forall t, forallb (fun c => negb (isspace c)) t = true ->
                        lstrip t = t).
  { intros [ | c t] Ht; [reflexivity | ]. apply lstrip_head.
    simpl in Ht. apply andb_prop in Ht. now apply negb_true_iff. }
  rewrite (L s H), L; [apply rev_involutive | ].
  rewrite forallb_forall in *. intros c Hc. apply H. now apply in_rev.
Qed.

Lemma digit_solid (d : N) : (d < 10)%N -> isspace (0x30 + d) = false.
Proof.
  intros H. unfold isspace, whitespace. cbn [existsb].
  repeat (rewrite (proj2 (N.eqb_neq _ _)) by lia). reflexivity.
Qed.

Lemma decimal_solid (fuel : nat) :
  forall (n : N) (acc : str),
    forallb (fun c => negb (isspace c)) acc = true ->
    forallb (fun c => negb (isspace c)) (decimal fuel n acc) = true
    /\ (acc <> [] \/ fuel <> O -> decimal fuel n acc <> []).
Proof.
  induction fuel as [ | fuel IH]; intros n acc H.
  - split; [exact H | ]. now intros [Hne | Hne].
  - cbn [decimal].
    assert (H' : forallb (fun c => negb (isspace c))
                         ((0x30 + n mod 10)%N :: acc) = true).
    { cbn [forallb]. rewrite digit_solid, H; [reflexivity | ].
      apply N.mod_lt. discriminate. }
    destruct (n / 10 =? 0)%N.
    + split; [exact H' | discriminate].
    + destruct (IH (n / 10)%N _ H') as [A B]. split; [exact A | ].
      intros _. apply B. left. discriminate.
Qed.

Lemma str_of_int_solid (z : Z) :
  forallb (fun c => negb (isspace c)) (str_of_int z) = true
  /\ str_of_int z <> [].
Proof.
  unfold str_of_int, str_of_N. destruct z as [ | p | p].
  - split; [reflexivity | discriminate].
  - destruct (decimal_solid (S (N.size_nat (Z.to_N (Z.pos p))))
                (Z.to_N (Z.pos p)) [] eq_refl) as [A B].
    split; [exact A | apply B; right; discriminate].
  - destruct (decimal_solid (S (N.size_nat (N.pos p))) (N.pos p) [] eq_refl)
      as [A B].
    split; [ | discriminate].
    cbn [forallb]. now rewrite A.
Qed.

Lemma strip_str_of_int (z : Z) : strip (str_of_int z) = str_of_int z.
Proof. apply strip_solid, str_of_int_solid. Qed.

(** What a cycle of the loop sends: nothing, or one message with the
    alerts of the cycle, to the chat that the recipient file names. *)
Lemma monitor_loop_sends (last_close : str -> option float) (now : datetime)
  (fs : Monitor.files) (msgs : list Monitor.message) :
  Monitor.monitor_loop last_close now fs = Ok (Monitor.Sleeps msgs) ->
  msgs = []
  \/ exists chat ps alerts,
       msgs = [(chat, alerts_message now alerts)]
       /\ Monitor.get_chat_id fs = Some chat /\ chat <> []
       /\ Monitor.load_positions fs = Ok ps
       /\ Monitor.collect_alerts last_close ps [] = Ok alerts
       /\ alerts <> [].
Proof.
  unfold Monitor.monitor_loop.
  destruct (Monitor.monitor_flag_file fs); [ | discriminate].
  destruct (Monitor.load_positions fs) as [[ | p ps] | e]; cbn [bind];
    [intros [= <-]; now left | | discriminate].
  destruct (Monitor.collect_alerts last_close (p :: ps) [])
    as [[ | a alerts] | e] eqn:E; cbn [bind];
    [intros [= <-]; now left | | discriminate].
  destruct (Monitor.get_chat_id fs) as [[ | c cs] | ] eqn:G;
    intros [= <-]; [now left | | now left].
  right. exists (c :: cs), (p :: ps), (a :: alerts).
  repeat split; try assumption; discriminate.
Qed.

Lemma run_sent_known (evs : list Monitor.event) :
  forall (pr : Monitor.process) (chat text : str),
    In (chat, text) (Monitor.sent (Monitor.run evs pr)) ->
    In (chat, text) (Monitor.sent pr)
    \/ In chat (command_chats evs)
    \/ Monitor.get_chat_id (Monitor.fs pr) = Some chat.
Proof.
  induction evs as [ | ev evs IH]; intros pr chat text Hin; [now left | ].
  cbn [Monitor.run fold_left] in Hin. apply IH in Hin.
  unfold command_chats. cbn [flat_map]. fold (command_chats evs).
  destruct ev as [c | c | i last_close now]; cbn [Monitor.handle] in Hin.
  - cbn [Monitor.start_monitor Monitor.sent Monitor.fs] in Hin.
    unfold Monitor.get_chat_id in Hin at 1.
    cbn [Monitor.chat_id_file Monitor.clear_positions] in Hin.
    rewrite strip_str_of_int in Hin.
    destruct Hin as [Hin | [Hin | Hin]].
    + apply in_app_or in Hin. destruct Hin as [Hin | [[= <- _] | []]];
        [now left | right; left; now left].
    + right. left. now right.
    + injection Hin as <-. right. left. now left.
  - destruct (stop_effect c pr) as [pr1 [E [_ [_ Hsent]]]].
    assert (Hchat : Monitor.get_chat_id (Monitor.fs pr1)
                    = Monitor.get_chat_id (Monitor.fs pr)).
    { unfold Monitor.stop_monitor, Monitor.remove_flag in E.
      destruct (Monitor.monitor_flag_file (Monitor.fs pr));
        cbn [bind] in E; injection E as <-; reflexivity. }
    rewrite E, Hsent, Hchat in Hin.
    destruct Hin as [Hin | [Hin | Hin]].
    + apply in_app_or in Hin. destruct Hin as [Hin | [[= <- _] | []]];
        [now left | right; left; now left].
    + right. left. now right.
    + now right; right.
  - assert (W : Monitor.fs (Monitor.wake i last_close now pr) = Monitor.fs pr
                /\ (Monitor.sent (Monitor.wake i last_close now pr)
                    = Monitor.sent pr
                    \/ exists msgs,
                         Monitor.monitor_loop last_close now (Monitor.fs pr)
                         = Ok (Monitor.Sleeps msgs)
                         /\ Monitor.sent (Monitor.wake i last_close now pr)
                            = Monitor.sent pr ++ msgs)).
    { unfold Monitor.wake.
      destruct (nth_error (Monitor.loops pr) i) as [[ | | e] | ];
        try (split; [reflexivity | now left]).
      destruct (Monitor.monitor_loop last_close now (Monitor.fs pr))
        as [[msgs | ] | e]; cbn [Monitor.fs Monitor.sent];
        (split; [reflexivity | ]); [right; now exists msgs | now left ..]. }
    destruct W as [Wfs Wsent]. rewrite Wfs in Hin.
    destruct Hin as [Hin | [Hin | Hin]];
      [ | right; now left | right; now right].
    destruct Wsent as [Hs | [msgs [Hloop Hs]]]; rewrite Hs in Hin;
      [now left | ].
    apply in_app_or in Hin. destruct Hin as [Hin | Hin]; [now left | ].
    apply monitor_loop_sends in Hloop.
    destruct Hloop as [-> | [c [ps [alerts [-> [G _]]]]]]; [destruct Hin | ].
    destruct Hin as [[= <- _] | []]. right. now right.
Qed.

(** The monitor writes to nobody else: every message that it sends goes to
    a chat that has sent it a command, or to the chat that the recipient
    file named when the process began. *)
Theorem messages_go_to_known_chats :
  forall (fs0 : Monitor.files) (evs : list Monitor.event) (chat text : str),
    In (chat, text) (Monitor.sent (Monitor.run evs (Monitor.fresh fs0))) ->
    In chat (command_chats evs) \/ Monitor.get_chat_id fs0 = Some chat.
Proof.
  intros fs0 evs chat text Hin. apply run_sent_known in Hin.
  destruct Hin as [[] | Hin]. exact Hin.
Qed.

Lemma messages_go_to_known_chats_witness :
  In (u "7") (command_chats [Monitor.Start 7; Monitor.Stop 7])
  \/ Monitor.get_chat_id no_files = Some (u "7").
Proof.
  apply (messages_go_to_known_chats no_files
           [Monitor.Start 7; Monitor.Stop 7] (u "7") stopped_reply).
  right. left. reflexivity.
Defined.

(** A cycle with alerts, after a start command of [chat] has written the
    recipient file: the alerts go to that chat, in one message. *)
Theorem alerts_reach_the_starter :
  forall (last_close : str -> option float) (now : datetime)
         (fs : Monitor.files) (chat : Z) (ps : list Position)
         (line : str) (lines : list str),
    Monitor.chat_id_file fs = Some (str_of_int chat) ->
    Monitor.monitor_flag_file fs = true ->
    Monitor.positions_file fs = Some (Encodes ps) ->
    Monitor.collect_alerts last_close ps [] = Ok (line :: lines) ->
    Monitor.monitor_loop last_close now fs
    = Ok (Monitor.Sleeps
            [(str_of_int chat, alerts_message now (line :: lines))]).
Proof.
  intros last_close now fs chat ps line lines Hchat Hflag Hpos Hal.
  unfold Monitor.monitor_loop, Monitor.load_positions, Monitor.get_chat_id.
  rewrite Hflag, Hpos, Hchat, strip_str_of_int. cbn [bind].
  destruct ps as [ | p ps]; [discriminate | ].
  rewrite Hal. cbn [bind].
  destruct (str_of_int chat) as [ | c cs] eqn:E; [ | reflexivity].
  now destruct (str_of_int_solid chat) as [_ H].
Qed.

Lemma alerts_reach_the_starter_witness :
  Monitor.monitor_loop (quote 104) noon (Monitor.fs (watching [AAA]))
  = Ok (Monitor.Sleeps
          [(str_of_int 7,
            alerts_message noon
              [u "📈 AAA up 4.00% (₹104.00) since entry ₹100.00"])]).
Proof.
  exact (alerts_reach_the_starter (quote 104) noon
           (Monitor.fs (watching [AAA])) 7 [AAA]
           (u "📈 AAA up 4.00% (₹104.00) since entry ₹100.00") []
           eq_refl eq_refl eq_refl eq_refl).
Defined.
